(** * gltf/cli.py: asset relocation and output layout of the glTF to BAM converter

    A shallow embedding of [main] of [gltf/cli.py].  The command line tool
    resolves the source, destination and assets paths, asks the converter for
    the scene collection, rewrites the filename of every external texture,
    copies texture files next to the output, optionally writes one BAM file
    per animation bundle and finally writes the main BAM file.

    The script is modelled as a program in a state-and-exception monad over a
    [world]: the file system, the heap of texture objects shared by the scene
    nodes, the working directory and the trace of externally visible calls.
    The host is taken to be POSIX: [os.path] is [posixpath] and the OS-specific
    form of a Panda3D [Filename] is its Unix form. *)

From Stdlib Require Import Ascii String.
From stdpp Require Import gmap strings list fin_maps.

Open Scope string_scope.

#[local] Set Warnings "-register-all,-clear-no-such-hyp,-abstract-large-number".

(** ** Python [str] methods used by the script *)

Module PyStr.

Definition is_sep (a : ascii) : bool := bool_decide (a = "/"%char).

(** [s.startswith('/')] *)
Definition startswith_sep (s : string) : bool :=
  match s with
  | String a _ => is_sep a
  | EmptyString => false
  end.

(** [s.endswith('/')] *)
Fixpoint endswith_sep (s : string) : bool :=
  match s with
  | EmptyString => false
  | String a EmptyString => is_sep a
  | String _ r => endswith_sep r
  end.

(** Position of the last [c]: [Some (s[:i], s[i+1:])] for [i = s.rfind(c)],
    [None] when [s.rfind(c) = -1]. *)
Fixpoint split_last (c : ascii) (s : string) : option (string * string) :=
  match s with
  | EmptyString => None
  | String a r =>
      match split_last c r with
      | Some (h, t) => Some (String a h, t)
      | None => if bool_decide (a = c) then Some (EmptyString, r) else None
      end
  end.

(** [s.rsplit(c, 1)[0]] *)
Definition rsplit1_head (c : ascii) (s : string) : string :=
  match split_last c s with
  | Some (h, _) => h
  | None => s
  end.

(** [c in s] *)
Fixpoint contains (c : ascii) (s : string) : bool :=
  match s with
  | EmptyString => false
  | String a r => bool_decide (a = c) || contains c r
  end.

(** [s.rstrip('/')] *)
Fixpoint rstrip_sep (s : string) : string :=
  match s with
  | EmptyString => EmptyString
  | String a r =>
      match rstrip_sep r with
      | EmptyString => if is_sep a then EmptyString else String a EmptyString
      | r' => String a r'
      end
  end.

(** [s == '/' * len(s)] *)
Fixpoint all_sep (s : string) : bool :=
  match s with
  | EmptyString => true
  | String a r => is_sep a && all_sep r
  end.

(** [s.split('/')] *)
Fixpoint split_sep (s : string) : list string :=
  match s with
  | EmptyString => [EmptyString]
  | String a r =>
      if is_sep a then EmptyString :: split_sep r
      else match split_sep r with
           | h :: t => String a h :: t
           | [] => [String a EmptyString]
           end
  end.

(** ['/'.join(cs)] *)
Fixpoint join_sep (cs : list string) : string :=
  match cs with
  | [] => ""
  | [c] => c
  | c :: rest => c +:+ "/" +:+ join_sep rest
  end.

(** [s[n:]] *)
Fixpoint drop (n : nat) (s : string) : string :=
  match n, s with
  | S n', String _ r => drop n' r
  | _, _ => s
  end.

(** [s[:n]] *)
Fixpoint take (n : nat) (s : string) : string :=
  match n, s with
  | S n', String a r => String a (take n' r)
  | _, _ => EmptyString
  end.

End PyStr.

(** ** [posixpath]: the functions of [os.path] the script calls *)

Module posixpath.
Import PyStr.

(** [os.path.join(a, b)]: an absolute [b] discards [a]. *)
Definition join (a b : string) : string :=
  if startswith_sep b then b
  else if bool_decide (a = "") || endswith_sep a then a +:+ b
  else a +:+ "/" +:+ b.

(** [os.path.dirname(p)] *)
Definition dirname (p : string) : string :=
  match split_last "/" p with
  | None => ""
  | Some (h, _) =>
      let head := h +:+ "/" in
      if all_sep head then head else rstrip_sep head
  end.

(** [os.path.basename(p)] *)
Definition basename (p : string) : string :=
  match split_last "/" p with
  | None => p
  | Some (_, t) => t
  end.

(** [os.path.split(p)] *)
Definition split (p : string) : string * string := (dirname p, basename p).

End posixpath.

(** ** Panda3D [Filename]

    [panda3d.core.Filename] holds a Unix-style path string.  The operations
    below follow the library's [Filename] class; on a POSIX host
    [from_os_specific] keeps the string and [to_os_specific] standardizes
    it. *)

Definition Filename := string.

Module Fn.
Import PyStr.

Definition from_os_specific (os_specific : string) : Filename := os_specific.

(** [Filename::is_local]: empty, or not starting with a slash. *)
Definition is_local (f : Filename) : bool := negb (startswith_sep f).

(** One step of [Filename::standardize] on the stack of components kept
    so far (most recent first).  [first_local] tells that the component
    starts at index 0 of the string. *)
Definition standardize_step (first_local : bool) (stack : list string)
    (component : string) : list string :=
  if bool_decide (component = ".") && negb first_local then stack
  else if bool_decide (component = "..") then
    match stack with
    | [] => [component]
    | top :: below =>
        if bool_decide (top = "..") then component :: stack
        else if bool_decide (top = ".") then component :: below
        else below
    end
  else component :: stack.

Fixpoint standardize_go (first_local : bool) (stack : list string)
    (cs : list string) : list string :=
  match cs with
  | [] => stack
  | c :: rest =>
      standardize_go false (standardize_step first_local stack c) rest
  end.

(** The non-empty components of a path string. *)
Definition components (f : string) : list string :=
  filter (λ c, c ≠ "") (split_sep f).

(** [Filename::standardize]: drops [.] components and doubled slashes and
    backs up over [..]. *)
Definition standardize (f : Filename) : Filename :=
  if bool_decide (f = ".") then f
  else
    let global := startswith_sep f in
    let kept := rev (standardize_go (negb global) [] (components f)) in
    (if global then "/" else "") +:+ join_sep kept.

(** [Filename(dirname, basename)] *)
Definition compose (dirname basename : Filename) : Filename :=
  if bool_decide (dirname = "") then basename
  else if endswith_sep dirname then dirname +:+ basename
  else dirname +:+ "/" +:+ basename.

(** [Filename::make_absolute(start_directory)] *)
Definition make_absolute (cwd : Filename) (f : Filename) : Filename :=
  if is_local f then standardize (compose cwd f) else standardize f.

(** [Filename::to_os_specific], also what [os.fspath] gives. *)
Definition to_os_specific (f : Filename) : string :=
  if bool_decide (f = "") then "" else standardize f.

(** [Filename::get_dirname]: up to the last run of slashes; the root keeps
    its slash. *)
Definition get_dirname (f : Filename) : Filename :=
  match split_last "/" f with
  | None => ""
  | Some (h, _) =>
      match rstrip_sep h with
      | EmptyString => "/"
      | d => d
      end
  end.

(** [Filename::get_basename] *)
Definition get_basename (f : Filename) : string :=
  match split_last "/" f with
  | None => f
  | Some (_, t) => t
  end.

(** The part of the filename before its basename. *)
Definition before_basename (f : Filename) : string :=
  match split_last "/" f with
  | None => ""
  | Some (h, _) => h +:+ "/"
  end.

(** [Filename::get_extension]: after the last dot of the basename. *)
Definition get_extension (f : Filename) : string :=
  match split_last "." (get_basename f) with
  | None => ""
  | Some (_, e) => e
  end.

(** [Filename::get_fullpath_wo_extension] *)
Definition get_fullpath_wo_extension (f : Filename) : string :=
  match split_last "." (get_basename f) with
  | None => f
  | Some (stem, _) => before_basename f +:+ stem
  end.

(** Length of the common initial substring. *)
Fixpoint common_initial (a b : string) : nat :=
  match a, b with
  | String x a', String y b' =>
      if bool_decide (x = y) then S (common_initial a' b') else 0
  | _, _ => 0
  end.

(** [Filename::get_common_prefix]: the common initial substring, cut back
    to end in a slash. *)
Definition get_common_prefix (f other : string) : nat :=
  match split_last "/" (take (common_initial f other) f) with
  | None => 0
  | Some (h, _) => S (String.length h)
  end.

(** [Filename::count_slashes]: runs of slashes count once. *)
Fixpoint count_slashes_go (after_slash : bool) (s : string) : nat :=
  match s with
  | EmptyString => 0
  | String a r =>
      if is_sep a
      then (if after_slash then 0 else 1) + count_slashes_go true r
      else count_slashes_go false r
  end.
Definition count_slashes : string → nat := count_slashes_go false.

Fixpoint backups (n : nat) : string :=
  match n with
  | 0 => ""
  | S n' => "../" +:+ backups n'
  end.

(** [Filename::make_relative_to(directory, allow_backups = true)]: the
    adjusted filename and the boolean the method returns.  Nothing is
    raised: when the filename is not absolute, or shares no leading
    directory with [directory], it is left as it is and [false] is
    returned. *)
Definition make_relative_to (directory : Filename) (f : Filename)
    : Filename * bool :=
  if bool_decide (f = "") || bool_decide (directory = "")
     || negb (startswith_sep f) || negb (startswith_sep directory)
  then (f, false)
  else
    let f' := standardize f in
    let directory' := standardize directory in
    if bool_decide (directory' = "/") then (f', false)
    else
      let rel_to_file := directory' +:+ "/." in
      let common := get_common_prefix f' rel_to_file in
      if bool_decide (common < 2)%nat then (f', false)
      else
        (backups (count_slashes (drop common rel_to_file))
           +:+ drop common f', true).

End Fn.

(** ** The converted scene

    The converter hands back Panda3D scene graphs.  A texture is an object
    on the heap, named by its identity (its address), so that several nodes
    can hold the same one.  A [GeomNode] carries the textures that the
    states of its Geoms refer to, once composed with the states above them;
    the textures another node carries are on its own state and reach no
    Geom. *)

Definition tex_id := nat.

Record Texture := mkTexture {
  filename : Filename;
  fullpath : Filename;
}.

Inductive node_kind :=
| PlainNode
| GeomNode
| AnimBundleNode (bundle_name : string).

Inductive PandaNode :=
| mkNode (name : string) (kind : node_kind) (node_textures : list tex_id)
         (children : list PandaNode).

Definition kind_of (n : PandaNode) : node_kind :=
  match n with mkNode _ k _ _ => k end.
Definition textures_of (n : PandaNode) : list tex_id :=
  match n with mkNode _ _ ts _ => ts end.
Definition children_of (n : PandaNode) : list PandaNode :=
  match n with mkNode _ _ _ cs => cs end.

(** Every node of the subtree, the root first. *)
Fixpoint subtree (n : PandaNode) : list PandaNode :=
  match n with
  | mkNode _ _ _ cs => n :: concat (map subtree cs)
  end.

Fixpoint depth (n : PandaNode) : nat :=
  match n with
  | mkNode _ _ _ cs => S (foldr Nat.max 0 (map depth cs))
  end.

Definition is_geom_node (n : PandaNode) : bool :=
  match kind_of n with
  | GeomNode => true
  | _ => false
  end.

(** [pset<Texture *>::insert]: a set kept in the order of the
    addresses. *)
Fixpoint pset_insert (t : tex_id) (s : list tex_id) : list tex_id :=
  match s with
  | [] => [t]
  | x :: rest =>
      if bool_decide (t < x)%nat then t :: s
      else if bool_decide (t = x) then s
      else x :: pset_insert t rest
  end.

(** [NodePath.find_all_textures()]: the textures on the Geoms of the
    [GeomNode]s of the subtree, gathered in a set ordered by address. *)
Definition find_all_textures (scene : PandaNode) : list tex_id :=
  foldl (λ textures t, pset_insert t textures) []
        (concat (map textures_of
                     (filter (λ n, is_geom_node n = true) (subtree scene)))).

Definition is_anim_bundle (n : PandaNode) : bool :=
  match kind_of n with
  | AnimBundleNode _ => true
  | _ => false
  end.

(** [NodePath] searches at most that many levels deep
    ([NodePath::_max_search_depth]). *)
Definition max_search_depth : nat := 7000.

(** An entry of a level of the search for ['**/+AnimBundleNode']
    ([FindApproxLevelEntry]): a node still matched against [**], or a node
    that has matched the whole path. *)
Inductive level_entry :=
| Search (n : PandaNode)
| Solution (n : PandaNode).

(** [FindApproxLevelEntry::consider_node]: a solution goes to the end of
    the result.  Of a node still searched, first the children of type
    [AnimBundleNode], then all the children, are put on the next level, each
    new entry in front of what the level holds. *)
Definition consider_node (e : level_entry)
    (acc : list PandaNode * list level_entry)
    : list PandaNode * list level_entry :=
  match e with
  | Solution n => ((acc.1 ++ [n])%list, acc.2)
  | Search n =>
      let matched :=
        foldl (λ next c, if is_anim_bundle c then Solution c :: next else next)
              acc.2 (children_of n) in
      (acc.1, foldl (λ next c, Search c :: next) matched (children_of n))
  end.

(** [NodePath::find_matches]: the levels one after the other, the entries
    of a level from its front. *)
Fixpoint find_matches (levels_remaining : nat) (level : list level_entry)
    (result : list PandaNode) : list PandaNode :=
  match levels_remaining, level with
  | 0, _ | _, [] => result
  | S remaining, _ =>
      let '(result', next_level) :=
        foldl (λ acc e, consider_node e acc) (result, []) level in
      find_matches remaining next_level result'
  end.

(** [NodePath.find_all_matches('**/+AnimBundleNode')]: the nodes of that
    type below the scene root, nearest levels first; among the children of
    one node, the last one first. *)
Definition find_all_matches_AnimBundleNode (scene : PandaNode)
    : list PandaNode :=
  find_matches max_search_depth [Search scene] [].

(** [bundlenode.node().bundle.name] *)
Definition bundle_name_of (n : PandaNode) : string :=
  match kind_of n with
  | AnimBundleNode nm => nm
  | _ => ""
  end.

(** What the converter leaves behind: [converter.scenes.values()] and
    [converter.active_scene]. *)
Record Converter := mkConverter {
  scenes : list PandaNode;
  active_scene : PandaNode;
}.

(** ** The world the script runs in *)

Inductive content :=
| Bytes (data : string)
| BamFile (root : PandaNode) (texture_names : list Filename).

Inductive fnode :=
| Dir
| File (c : content).

(** A file system without links: absolute, normalised component lists to
    nodes.  The root always is a directory. *)
Abbreviation filesystem := (gmap (list string) fnode).

Inductive exn :=
| FileNotFoundError (path : string)
| FileExistsError (path : string)
| NotADirectoryError (path : string)
| IsADirectoryError (path : string)
| SameFileError (src dst : string)
| ConversionError (msg : string).

Inductive event :=
| EvPrint (line : string)
| EvLs (root : PandaNode)
| EvMakedirs (path : string)
| EvCopy (src dst : string)
| EvWriteBam (path : string) (root : PandaNode).

Record world := mkWorld {
  fs : filesystem;
  heap : gmap tex_id Texture;
  cwd : string;
  trace : list event;
}.

Module FS.
Import PyStr.

Definition norm_step (acc : list string) (c : string) : list string :=
  if bool_decide (c = ".") then acc
  else if bool_decide (c = "..") then removelast acc
  else (acc ++ [c])%list.

(** The node a path string names, from the working directory [wd] when
    the path is relative; [..] is resolved on the string, as
    [os.path.normpath] does. *)
Definition resolve (wd p : string) : list string :=
  foldl norm_step []
    (Fn.components (if startswith_sep p then p else wd +:+ "/" +:+ p)).

Definition parent (k : list string) : list string := removelast k.

Definition is_dir (m : filesystem) (k : list string) : bool :=
  match m !! k with
  | Some Dir => true
  | _ => bool_decide (k = [])
  end.

(** The paths [os.makedirs(name)] may call [mkdir] with, the shortest
    first: [name], before it its head by [os.path.split], before that the
    head of the head, as long as head and tail are not empty. *)
Fixpoint heads_go (fuel : nat) (name : string) : list string :=
  let (head0, tail0) := posixpath.split name in
  let (head, tail) :=
    if bool_decide (tail0 = "") then posixpath.split head0
    else (head0, tail0) in
  if bool_decide (head ≠ "") && bool_decide (tail ≠ "")
  then match fuel with
       | S fuel' => (heads_go fuel' head ++ [name])%list
       | 0 => [name]
       end
  else [name].

Definition heads (name : string) : list string :=
  heads_go (String.length name) name.

(** The path [os.makedirs(name)] was creating when the regular file at
    [here] stopped it: the shortest of its paths that leads below
    [here]. *)
Definition creating (wd name : string) (here : list string) : string :=
  match filter (λ h, here `prefix_of` resolve wd h ∧ resolve wd h ≠ here)
               (heads name) with
  | h :: _ => h
  | [] => name
  end.

(** The exception of [os.makedirs(name, exist_ok=True)] at a regular file:
    [mkdir] of the path below it raises [NotADirectoryError]; when the
    file is at [name] itself, [mkdir(name)] raises [FileExistsError], which
    is not let through only for a directory. *)
Definition makedirs_error (wd name : string) (here rest : list string)
    : exn :=
  match rest with
  | [] => FileExistsError name
  | _ => NotADirectoryError (creating wd name here)
  end.

(** Create the missing directories along [todo] below [base]; a regular
    file on the way raises [blocked here rest]. *)
Fixpoint mkdirs_go (blocked : list string → list string → exn)
    (base todo : list string) (m : filesystem) : filesystem * option exn :=
  match todo with
  | [] => (m, None)
  | c :: rest =>
      let here := (base ++ [c])%list in
      match m !! here with
      | None => mkdirs_go blocked here rest (<[here := Dir]> m)
      | Some Dir => mkdirs_go blocked here rest m
      | Some (File _) => (m, Some (blocked here rest))
      end
  end.

(** [os.makedirs(name, exist_ok=True)] *)
Definition makedirs (wd name : string) (m : filesystem)
    : filesystem * option exn :=
  if bool_decide (name = "") then (m, Some (FileNotFoundError name))
  else mkdirs_go (makedirs_error wd name) [] (resolve wd name) m.

(** [open(dst, 'wb')] followed by a write of [c] *)
Definition write (wd dst : string) (c : content) (m : filesystem)
    : filesystem * option exn :=
  let k := resolve wd dst in
  if is_dir m k then (m, Some (IsADirectoryError dst))
  else if is_dir m (parent k) then (<[k := File c]> m, None)
  else match m !! parent k with
       | Some (File _) => (m, Some (NotADirectoryError dst))
       | _ => (m, Some (FileNotFoundError dst))
       end.

(** Where [shutil.copy(src, dst)] writes: inside [dst] when that is a
    directory. *)
Definition copy_target (wd src dst : string) (m : filesystem) : string :=
  if is_dir m (resolve wd dst)
  then posixpath.join dst (posixpath.basename src) else dst.

(** [shutil.copy(src, dst)] *)
Definition copy (wd src dst : string) (m : filesystem)
    : filesystem * option exn :=
  let dst' := copy_target wd src dst m in
  let ks := resolve wd src in
  let same := bool_decide (ks = resolve wd dst') in
  match (if is_dir m ks then Some Dir else m !! ks) with
  | None => (m, Some (FileNotFoundError src))
  | Some Dir =>
      if same then (m, Some (SameFileError src dst'))
      else (m, Some (IsADirectoryError src))
  | Some (File c) =>
      if same then (m, Some (SameFileError src dst'))
      else write wd dst' c m
  end.

(** Something lies below the node [k]. *)
Definition has_entries (m : filesystem) (k : list string) : bool :=
  existsb (λ kn, bool_decide (k `prefix_of` kn.1 ∧ kn.1 ≠ k)) (map_to_list m).

(** [VirtualFileSystem::delete_file(path)], [unlink() || rmdir()]: a
    regular file goes, and so does a directory that holds nothing. *)
Definition delete_file (wd path : string) (m : filesystem) : filesystem :=
  let k := resolve wd path in
  match m !! k with
  | Some (File _) => delete k m
  | Some Dir => if has_entries m k then m else delete k m
  | None => m
  end.

(** The node of [path.pz], from the node of [path]. *)
Definition pz (k : list string) : list string :=
  (removelast k ++ [List.last k "" +:+ ".pz"])%list.

(** What [VirtualFileSystem::create_file] leaves when [path] is a
    directory: it goes on to the implicit [path.pz] and creates that file,
    empty, unless something has the name. *)
Definition stray_pz (k : list string) (m : filesystem) : filesystem :=
  if bool_decide (k = []) then m
  else if is_dir m (parent k) && bool_decide (m !! pz k = None)
  then <[pz k := File (Bytes "")]> m
  else m.

End FS.

(** ** The monad of the script: state of the world, and Python exceptions *)

Inductive result (A : Type) :=
| Ok (a : A)
| Raise (e : exn).
Arguments Ok {A} a.
Arguments Raise {A} e.

Definition M (A : Type) : Type := world → world * result A.

Definition ret {A} (a : A) : M A := λ w, (w, Ok a).

Definition bind {A B} (m : M A) (k : A → M B) : M B :=
  λ w, match m w with
       | (w', Ok a) => k a w'
       | (w', Raise e) => (w', Raise e)
       end.

Declare Scope py_scope.
Delimit Scope py_scope with py.
Notation "x <- m ;; k" := (bind m (λ x, k))
  (at level 100, m at next level, right associativity) : py_scope.
Notation "m ;; k" := (bind m (λ _, k))
  (at level 100, k at level 200, right associativity) : py_scope.
Open Scope py_scope.

(** [for x in xs: body(x)] *)
Fixpoint for_each {A} (xs : list A) (body : A → M unit) : M unit :=
  match xs with
  | [] => ret tt
  | x :: rest => body x ;; for_each rest body
  end.

Definition log (e : event) (w : world) : world :=
  mkWorld (fs w) (heap w) (cwd w) (trace w ++ [e])%list.

Definition set_fs (m : filesystem) (w : world) : world :=
  mkWorld m (heap w) (cwd w) (trace w).

Definition set_heap (h : gmap tex_id Texture) (w : world) : world :=
  mkWorld (fs w) h (cwd w) (trace w).

(** An operation of the file system, traced, whose failure is raised. *)
Definition fs_call (e : event)
    (op : string → filesystem → filesystem * option exn) : M unit :=
  λ w, let w1 := log e w in
       match op (cwd w1) (fs w1) with
       | (m, None) => (set_fs m w1, Ok tt)
       | (m, Some err) => (set_fs m w1, Raise err)
       end.

Definition print (line : string) : M unit := λ w, (log (EvPrint line) w, Ok tt).

Definition os_getcwd : M string := λ w, (w, Ok (cwd w)).

Definition os_makedirs (name : string) : M unit :=
  fs_call (EvMakedirs name) (λ wd, FS.makedirs wd name).

Definition shutil_copy (src dst : string) : M unit :=
  fs_call (EvCopy src dst) (λ wd, FS.copy wd src dst).

(** [texture.filename], [texture.fullpath] *)
Definition get_filename (t : tex_id) : M Filename :=
  λ w, (w, Ok (from_option filename "" (heap w !! t))).
Definition get_fullpath (t : tex_id) : M Filename :=
  λ w, (w, Ok (from_option fullpath "" (heap w !! t))).

(** [texture.filename = f]: the one object [t] names is updated. *)
Definition set_filename (t : tex_id) (f : Filename) : M unit :=
  λ w, (set_heap (alter (λ tx, mkTexture f (fullpath tx)) t (heap w)) w, Ok tt).

(** [nodepath.ls()] *)
Definition ls (n : PandaNode) : M unit := λ w, (log (EvLs n) w, Ok tt).

(** The name [Texture::write_datagram] stores for a texture in a BAM file
    (mode [bam-texture-mode relative], the default): its fullpath made
    relative to the directory of the BAM file where [make_relative_to]
    can, and left as that call leaves it otherwise (no directory of the
    model path lies above the texture).  The filename of the texture is not
    read. *)
Definition bam_texture_name (wd : string) (bam : Filename) (full : Filename)
    : Filename :=
  fst (Fn.make_relative_to (Fn.make_absolute wd (Fn.get_dirname bam)) full).

(** The content of the BAM file [path] written for the subtree [root] with
    the textures of [h]. *)
Definition bam_content (wd : string) (path : Filename) (root : PandaNode)
    (h : gmap tex_id Texture) : content :=
  BamFile root
    (map (λ t, bam_texture_name wd path (from_option fullpath "" (h !! t)))
         (find_all_textures root)).

(** [nodepath.write_bam_file(path)].  [BamFile::open_write] first deletes
    what is at the path (a file, or an empty directory), then opens the
    file; on a directory that is still there the open fails and leaves an
    empty [path.pz].  Failure is reported by the return value; nothing is
    raised. *)
Definition write_bam_file (n : PandaNode) (path : Filename) : M bool :=
  λ w, let w1 := log (EvWriteBam path n) w in
       if bool_decide (path = "") then (w1, Ok false)
       else
         let k := FS.resolve (cwd w1) (Fn.to_os_specific path) in
         let m1 := FS.delete_file (cwd w1) (Fn.to_os_specific path) (fs w1) in
         if FS.is_dir m1 k
         then (set_fs (FS.stray_pz k m1) w1, Ok false)
         else if FS.is_dir m1 (FS.parent k)
         then (set_fs (<[k := File (bam_content (cwd w1) path n (heap w1))]> m1)
                      w1, Ok true)
         else (set_fs m1 w1, Ok false).

(** ** Command line arguments and converter settings *)

Inductive CollisionShapes := builtin | bullet.
Inductive TexturesMode := ref | copy.
Inductive AnimationsMode := embed | separate | skip.

#[global] Instance TexturesMode_eq_dec : EqDecision TexturesMode.
Proof. solve_decision. Defined.
#[global] Instance AnimationsMode_eq_dec : EqDecision AnimationsMode.
Proof. solve_decision. Defined.

(** The namespace [parser.parse_args()] returns.  [dst] is [""] and
    [assets_dir] is [None] when not given. *)
Record Args := mkArgs {
  arg_src : string;
  arg_dst : string;
  arg_collision_shapes : CollisionShapes;
  arg_print_scene : bool;
  arg_skip_axis_conversion : bool;
  arg_no_srgb : bool;
  arg_textures : TexturesMode;
  arg_legacy_materials : bool;
  arg_animations : AnimationsMode;
  arg_flatten_nodes : bool;
  arg_assets_dir : option string;
}.

Record GltfSettings := mkGltfSettings {
  collision_shapes : CollisionShapes;
  skip_axis_conversion : bool;
  no_srgb : bool;
  legacy_materials : bool;
  skip_animations : bool;
  flatten_nodes : bool;
}.

Definition settings_of (args : Args) : GltfSettings :=
  mkGltfSettings (arg_collision_shapes args) (arg_skip_axis_conversion args)
    (arg_no_srgb args) (arg_legacy_materials args)
    (bool_decide (arg_animations args = skip)) (arg_flatten_nodes args).

(** ** [main], block by block *)

(** Lines 118-119: [args.src.rsplit('.', 1)[0] + '.bam']. *)
Definition default_dst (src : string) : string :=
  PyStr.rsplit1_head "." src +:+ ".bam".

(** The paths of lines 115-130. *)
Record Paths := mkPaths {
  src : Filename;
  dst : Filename;
  indir : Filename;
  outdir : Filename;
  assets_dir : Filename;
}.

(** Lines 115-130, from the working directory [wd].  [indir] is the value
    line 123 gives it. *)
Definition resolve_paths (wd : string) (args : Args) : Paths :=
  let src := Fn.make_absolute wd (Fn.from_os_specific (arg_src args)) in
  let dst_arg :=
    if bool_decide (arg_dst args = "") then default_dst (arg_src args)
    else arg_dst args in
  let dst := Fn.make_absolute wd (Fn.from_os_specific dst_arg) in
  let indir := Fn.get_dirname src in
  let outdir := Fn.get_dirname dst in
  let assets_dir :=
    match arg_assets_dir args with
    | None | Some EmptyString => indir
    | Some d => Fn.from_os_specific d
    end in
  mkPaths src dst indir outdir (Fn.make_absolute wd assets_dir).

(** Lines 145-150: the textures of every scene that have a filename, as
    references to the texture objects. *)
Definition collect_textures (converter : Converter) : M (list tex_id) :=
  λ w, (w, Ok (filter (λ t, from_option filename "" (heap w !! t) ≠ "")
                      (concat (map find_all_textures (scenes converter))))).

(** Line 154: [os.path.join(assets_dir.to_os_specific(), fname)]. *)
Definition texsrc_of (p : Paths) (fname : Filename) : string :=
  posixpath.join (Fn.to_os_specific (assets_dir p)) (Fn.to_os_specific fname).

(** Line 155: [os.path.join(outdir.to_os_specific(), fname)]. *)
Definition texdst_of (p : Paths) (fname : Filename) : string :=
  posixpath.join (Fn.to_os_specific (outdir p)) (Fn.to_os_specific fname).

(** Lines 164-165: [relpath = Filename(fname);
    relpath.makeRelativeTo(assets_dir)]; the boolean is dropped. *)
Definition relpath_of (p : Paths) (fname : Filename) : Filename :=
  fst (Fn.make_relative_to (assets_dir p) fname).

(** Lines 153-171: the body of the loop over the textures. *)
Definition relocate_texture (args : Args) (p : Paths) (texture : tex_id)
    : M unit :=
  fname <- get_filename texture ;;
  let texsrc := texsrc_of p fname in
  let texdst := texdst_of p fname in
  if bool_decide (arg_textures args = copy)
     || bool_decide (arg_textures args = ref)
  then
    set_filename texture (relpath_of p fname) ;;
    full <- get_fullpath texture ;;
    shown <- get_filename texture ;;
    print ("Bam file fullpath: " +:+ full +:+ ", fname: " +:+ shown) ;;
    print ("Copying texture " +:+ texsrc +:+ " to " +:+ texdst) ;;
    if bool_decide (texsrc ≠ texdst)
    then
      os_makedirs (posixpath.dirname texdst) ;;
      shutil_copy texsrc texdst
    else ret tt
  else ret tt.

(** Line 176-178: where the bundle of that name goes. *)
Definition anim_dst (p : Paths) (anim_name : string) : string :=
  Fn.get_fullpath_wo_extension (dst p)
    +:+ ("_" +:+ anim_name +:+ ".")
    +:+ Fn.get_extension (dst p).

(** Lines 174-179: the body of the loop over the bundle nodes. *)
Definition write_animation (p : Paths) (bundlenode : PandaNode) : M unit :=
  _ <- write_bam_file bundlenode (anim_dst p (bundle_name_of bundlenode)) ;;
  ret tt.

(** Lines 145-171: the textures are collected, then relocated one by one. *)
Definition relocate_textures (args : Args) (p : Paths) (converter : Converter)
    : M unit :=
  textures <- collect_textures converter ;;
  for_each textures (relocate_texture args p).

(** Lines 173-182: the animation bundles, when they go to files of their
    own, then the scene. *)
Definition write_artifacts (args : Args) (p : Paths) (converter : Converter)
    : M unit :=
  (if bool_decide (arg_animations args = separate)
   then for_each (find_all_matches_AnimBundleNode (active_scene converter))
                 (write_animation p)
   else ret tt) ;;
  print ("Writing bam file to " +:+ dst p) ;;
  _ <- write_bam_file (active_scene converter) (dst p) ;;
  ret tt.

(** Lines 136-182: what [main] does once the converter has run. *)
Definition emit (args : Args) (p : Paths) (converter : Converter) : M unit :=
  os_makedirs (Fn.to_os_specific (outdir p)) ;;
  (if arg_print_scene args then ls (active_scene converter) else ret tt) ;;
  relocate_textures args p converter ;;
  write_artifacts args p converter.

(** [main].  Lines 132-134 belong to the converter and the glTF parser,
    which are not part of this file: [run_converter src settings assets_dir]
    stands for them.  It may read files, allocate textures and raise. *)
Definition main
    (run_converter : Filename → GltfSettings → Filename → M Converter)
    (args : Args) : M unit :=
  wd <- os_getcwd ;;
  let settings := settings_of args in
  let p := resolve_paths wd args in
  converter <- run_converter (src p) settings (assets_dir p) ;;
  emit args p converter.

(** * Notions the properties are stated with *)

Definition with_textures (mode : TexturesMode) (args : Args) : Args :=
  mkArgs (arg_src args) (arg_dst args) (arg_collision_shapes args)
    (arg_print_scene args) (arg_skip_axis_conversion args) (arg_no_srgb args)
    mode (arg_legacy_materials args) (arg_animations args)
    (arg_flatten_nodes args) (arg_assets_dir args).

(** The loop body with the mode test of line 162 resolved. *)
Definition relocate_body (p : Paths) (texture : tex_id) : M unit :=
  fname <- get_filename texture ;;
  set_filename texture (relpath_of p fname) ;;
  full <- get_fullpath texture ;;
  shown <- get_filename texture ;;
  print ("Bam file fullpath: " +:+ full +:+ ", fname: " +:+ shown) ;;
  print ("Copying texture " +:+ texsrc_of p fname
           +:+ " to " +:+ texdst_of p fname) ;;
  if bool_decide (texsrc_of p fname ≠ texdst_of p fname)
  then
    os_makedirs (posixpath.dirname (texdst_of p fname)) ;;
    shutil_copy (texsrc_of p fname) (texdst_of p fname)
  else ret tt.

(** The filename a texture object has in a world. *)
Definition declared (w : world) (t : tex_id) : Filename :=
  from_option filename "" (heap w !! t).

(** The heap after [texture.filename = relpath]. *)
Definition rewritten_heap (p : Paths) (t : tex_id) (w : world)
    : gmap tex_id Texture :=
  alter (λ tx, mkTexture (relpath_of p (declared w t)) (fullpath tx)) t (heap w).

(** The world after lines 164-168: the filename rewritten and the two lines
    printed; the file system is as before. *)
Definition retarget (p : Paths) (t : tex_id) (w : world) : world :=
  let w1 := set_heap (rewritten_heap p t w) w in
  log (EvPrint ("Copying texture " +:+ texsrc_of p (declared w t)
                  +:+ " to " +:+ texdst_of p (declared w t)))
    (log (EvPrint ("Bam file fullpath: " +:+ from_option fullpath "" (heap w1 !! t)
                     +:+ ", fname: " +:+ from_option filename "" (heap w1 !! t)))
         w1).

(** The texture seen through the [i]-th texture slot of a node. *)
Definition node_texture (w : world) (n : PandaNode) (i : nat)
    : option Texture :=
  textures_of n !! i ≫= λ t, heap w !! t.

(** The standardized filename and directory share no leading directory:
    their common prefix is at most the root slash. *)
Definition no_common_root (directory f : Filename) : Prop :=
  Fn.get_common_prefix (Fn.standardize f) (Fn.standardize directory +:+ "/.")
  < 2.

(** No two slashes in a row. *)
Fixpoint no_double_sep (s : string) : bool :=
  match s with
  | String a r =>
      negb (PyStr.is_sep a && PyStr.startswith_sep r) && no_double_sep r
  | EmptyString => true
  end.

(** A path component: not empty, no slash inside. *)
Definition component (c : string) : Prop :=
  c ≠ "" ∧ PyStr.contains "/" c = false.

(** The BAM files [write_bam_file] was called for, in the order of the
    calls. *)
Definition bam_writes (tr : list event) : list (string * PandaNode) :=
  omap (λ e, match e with
             | EvWriteBam path n => Some (path, n)
             | _ => None
             end) tr.

(** The writes of a job that reached its end. *)
Definition artifacts (args : Args) (p : Paths) (converter : Converter)
    : list (string * PandaNode) :=
  ((if bool_decide (arg_animations args = separate)
    then map (λ n, (anim_dst p (bundle_name_of n), n))
             (find_all_matches_AnimBundleNode (active_scene converter))
    else [])
   ++ [(dst p, active_scene converter)])%list.

(** The names of the bundles among the writes, in the order written. *)
Definition bundle_write_order (tr : list event) : list string :=
  map (λ pn, bundle_name_of pn.2)
      (filter (λ pn, is_anim_bundle pn.2 = true) (bam_writes tr)).

Fixpoint sorted_by_name (names : list string) : bool :=
  match names with
  | a :: (b :: _) as rest => String.leb a b && sorted_by_name rest
  | _ => true
  end.

(** The nodes within [j] levels below [n], a node before its children. *)
Fixpoint within (j : nat) (n : PandaNode) : list PandaNode :=
  match j with
  | 0 => []
  | S j' => concat (map (λ c, c :: within j' c) (children_of n))
  end.

(** The nodes of a level that are still searched, and those that have
    matched. *)
Definition searched (level : list level_entry) : list PandaNode :=
  omap (λ e, match e with Search n => Some n | Solution _ => None end) level.

Definition solutions (level : list level_entry) : list PandaNode :=
  omap (λ e, match e with Solution n => Some n | Search _ => None end) level.

(** The animation bundle nodes of a list. *)
Abbreviation bundles l := (filter (λ n, is_anim_bundle n = true) l)
  (only parsing).

(** ** The claims the code does not meet, as the specification words them *)

(** C3 as stated, on the result: after the step the filename is relative. *)
Definition rewritten_relative (args : Args) (p : Paths) (w : world)
    (t : tex_id) : Prop :=
  Fn.is_local (declared (fst (relocate_texture args p t w)) t) = true.

(** C7 as stated: the destination path of the step is the output directory
    joined with the filename the rewrite stores. *)
Definition destination_from_rewritten (p : Paths) (w : world) (t : tex_id)
    : Prop :=
  texdst_of p (declared w t) = texdst_of p (relpath_of p (declared w t)).

(** C8 as stated: with no common root between the filename and the assets
    directory the job is aborted by an exception. *)
Definition aborts_without_common_root
    (run_converter : Filename → GltfSettings → Filename → M Converter)
    (args : Args) (w : world) (t : tex_id) : Prop :=
  no_common_root (assets_dir (resolve_paths (cwd w) args)) (declared w t) →
  ∃ e, snd (main run_converter args w) = Raise e.

(** C5 as stated, on the order: the bundles are written sorted by name. *)
Definition bundles_written_by_name
    (run_converter : Filename → GltfSettings → Filename → M Converter)
    (args : Args) (w : world) : Prop :=
  sorted_by_name (bundle_write_order (trace (fst (main run_converter args w))))
  = true.

(** C2 as stated, for the texture [t]: with equal paths nothing is copied
    and the filename stored is relative; with different paths and the
    source file there, the step goes through, the parent of the destination
    is a directory and the bytes of the source are at the destination. *)
Definition copies_unless_same_path (args : Args) (p : Paths) (w : world)
    (t : tex_id) : Prop :=
  let texsrc := texsrc_of p (declared w t) in
  let texdst := texdst_of p (declared w t) in
  let w' := fst (relocate_texture args p t w) in
  (texsrc = texdst →
     fs w' = fs w ∧ Fn.is_local (declared w' t) = true)
  ∧ (texsrc ≠ texdst →
     ∀ c, fs w !! FS.resolve (cwd w) texsrc = Some (File c) →
       snd (relocate_texture args p t w) = Ok tt
       ∧ FS.is_dir (fs w') (FS.resolve (cwd w) (posixpath.dirname texdst))
         = true
       ∧ fs w' !! FS.resolve (cwd w) texdst = Some (File c)).

(** C1 as stated, for the texture [t]: if its file is not there the job
    raises and no file appears below the output directory. *)
Definition missing_asset_leaves_no_file
    (run_converter : Filename → GltfSettings → Filename → M Converter)
    (args : Args) (w : world) (t : tex_id) : Prop :=
  fs w !! FS.resolve (cwd w)
            (texsrc_of (resolve_paths (cwd w) args) (declared w t)) = None →
  (∃ e, snd (main run_converter args w) = Raise e)
  ∧ ∀ k c,
      FS.resolve (cwd w) (outdir (resolve_paths (cwd w) args)) `prefix_of` k →
      fs (fst (main run_converter args w)) !! k = Some (File c) →
      fs w !! k = Some (File c).

(** * Some jobs to run the script on *)

Definition args_dotted_dir : Args :=
  mkArgs "models.v1/scene" "" builtin false false false ref false embed false
         None.

Definition job_args (dst_arg : string) (assets : option string)
    (anims : AnimationsMode) : Args :=
  mkArgs "/in/model.gltf" dst_arg builtin false false false ref false anims
         false assets.

Definition paths_in_to_out : Paths :=
  resolve_paths "/work" (job_args "/out/model.bam" None embed).

Definition paths_in_place : Paths :=
  resolve_paths "/work" (job_args "" None embed).

Definition fs_one_texture : filesystem :=
  list_to_map [ (["in"], Dir); (["in"; "tex"], Dir);
                (["in"; "tex"; "a.png"], File (Bytes "PNG-a")) ].

Definition world_one_texture : world :=
  mkWorld fs_one_texture {[ 0 := mkTexture "tex/a.png" "/in/tex/a.png" ]}
          "/work" [].

Definition node_wall : PandaNode := mkNode "wall" GeomNode [0] [].
Definition node_floor : PandaNode := mkNode "floor" GeomNode [7; 0] [].

Definition world_abs_texture : world :=
  mkWorld fs_one_texture {[ 0 := mkTexture "/in/tex/a.png" "/in/tex/a.png" ]}
          "/work" [].

Definition world_abs_relocated : world :=
  fst (relocate_texture (job_args "/out/model.bam" None embed)
         paths_in_to_out 0 world_abs_texture).

Definition world_foreign_texture : world :=
  mkWorld fs_one_texture {[ 0 := mkTexture "/x/t.png" "/x/t.png" ]} "/work" [].

(** A texture named from the assets directory upwards: both the source
    and the destination path lead to [/shared/t.png]. *)
Definition fs_shared_texture : filesystem :=
  list_to_map [ (["in"], Dir); (["out"], Dir); (["shared"], Dir);
                (["shared"; "t.png"], File (Bytes "PNG-s")) ].

Definition world_shared_texture : world :=
  mkWorld fs_shared_texture
    {[ 0 := mkTexture "../shared/t.png" "/shared/t.png" ]} "/work" [].

Definition scene_one_geom : PandaNode :=
  mkNode "scene" PlainNode [] [mkNode "mesh" GeomNode [0] []].

Definition converted (scene : PandaNode)
    : Filename → GltfSettings → Filename → M Converter :=
  λ _ _ _, ret (mkConverter [scene] scene).

Definition scene_walk_idle : PandaNode :=
  mkNode "scene" PlainNode []
    [ mkNode "walk" (AnimBundleNode "walk") [] [];
      mkNode "idle" (AnimBundleNode "idle") [] [] ].

(** The same bundles, the other way round in the graph. *)
Definition scene_idle_walk : PandaNode :=
  mkNode "scene" PlainNode []
    [ mkNode "idle" (AnimBundleNode "idle") [] [];
      mkNode "walk" (AnimBundleNode "walk") [] [] ].

Definition world_no_texture : world := mkWorld fs_one_texture ∅ "/work" [].

Definition world_mixed_textures : world :=
  mkWorld fs_one_texture
    {[ 0 := mkTexture "/in/tex/a.png" "/in/tex/a.png";
       1 := mkTexture "" "" ]}
    "/work" [].

Definition scene_two_geoms : PandaNode :=
  mkNode "scene" PlainNode []
    [ mkNode "mesh" GeomNode [0] []; mkNode "sky" GeomNode [1; 0] [] ].

(** Two scenes of one converter, each with a texture of its own; the
    textures of the first scene are relocated first. *)
Definition scene_walls : PandaNode :=
  mkNode "walls" PlainNode [] [mkNode "wall" GeomNode [0] []].

Definition scene_roofs : PandaNode :=
  mkNode "roofs" PlainNode [] [mkNode "roof" GeomNode [1] []].

Definition converted_two (first second : PandaNode)
    : Filename → GltfSettings → Filename → M Converter :=
  λ _ _ _, ret (mkConverter [first; second] first).

Definition scene_two_meshes : PandaNode :=
  mkNode "scene" PlainNode []
    [ mkNode "wall" GeomNode [0] []; mkNode "roof" GeomNode [1] [] ].

(** [tex/a.png] is in the assets directory, [tex/b.png] is not. *)
Definition world_b_missing : world :=
  mkWorld fs_one_texture
    {[ 0 := mkTexture "tex/a.png" "/in/tex/a.png";
       1 := mkTexture "tex/b.png" "/in/tex/b.png" ]}
    "/work" [].

Definition world_a_copied : world :=
  fst (relocate_texture (job_args "/out/model.bam" None embed)
         paths_in_to_out 0 world_b_missing).

(** * Notions for the properties of the whole job *)



(** The world in which the relocation starts, from the world [w1] line 136
    leaves: the scene printed when asked for (lines 138-139). *)
Definition after_ls (args : Args) (converter : Converter) (w1 : world)
    : world :=
  if arg_print_scene args then log (EvLs (active_scene converter)) w1 else w1.

(** The content [c] was in some file of [m]. *)
Definition content_in (m : filesystem) (c : content) : Prop :=
  ∃ k, m !! k = Some (File c).

(** A component other than [.] and [..]. *)
Definition plain (c : string) : Prop := c ≠ "." ∧ c ≠ "..".

(** The stacks [Filename::standardize] builds (most recent component
    first): plain components above some [..], or, for a filename that is
    not absolute, above the one leading [.]. *)
Definition stack_nf (allow_dot : bool) (stack : list string) : Prop :=
  (∃ rest k, stack = (rest ++ replicate k "..")%list ∧ Forall plain rest)
  ∨ (allow_dot = true ∧ ∃ rest, stack = (rest ++ ["."])%list ∧ Forall plain rest).

(** An absolute filename that [Filename::standardize] leaves as it is. *)
Definition absolute_standard (f : Filename) : Prop :=
  PyStr.startswith_sep f = true ∧ Fn.standardize f = f.

(** A world in which [/out] is a regular file. *)
Definition fs_out_is_file : filesystem :=
  list_to_map [ (["in"], Dir); (["out"], File (Bytes "not a directory")) ].

Definition world_out_is_file : world :=
  mkWorld fs_out_is_file ∅ "/work" [].

Definition converted_one_geom : Converter :=
  mkConverter [scene_one_geom] scene_one_geom.


(** From [m] to [m'] no name is lost: a regular file is still a regular
    file, a directory still a directory, unless it held nothing and a
    regular file has its name now. *)
Definition kept (m m' : filesystem) : Prop :=
  ∀ k, match m !! k with
       | Some (File _) => ∃ c', m' !! k = Some (File c')
       | Some Dir =>
           m' !! k = Some Dir
           ∨ (FS.has_entries m k = false ∧ ∃ c', m' !! k = Some (File c'))
       | None => True
       end.



(** * Properties *)

(** ** Examples of path computations *)

Example join_abs : posixpath.join "/assets" "/x/t.png" = "/x/t.png".
Proof. reflexivity. Qed.
Example join_rel : posixpath.join "/assets" "tex/t.png" = "/assets/tex/t.png".
Proof. reflexivity. Qed.
Example dirname_ex : posixpath.dirname "/out/tex/t.png" = "/out/tex".
Proof. reflexivity. Qed.
Example rel_under :
  Fn.make_relative_to "/assets" "/assets/tex/t.png" = ("tex/t.png", true).
Proof. reflexivity. Qed.
Example rel_sibling :
  Fn.make_relative_to "/a/assets" "/a/shared/t.png" = ("../shared/t.png", true).
Proof. reflexivity. Qed.
Example rel_no_common :
  Fn.make_relative_to "/y/z" "/x/t.png" = ("/x/t.png", false).
Proof. reflexivity. Qed.
Example rel_local :
  Fn.make_relative_to "/assets" "tex/t.png" = ("tex/t.png", false).
Proof. reflexivity. Qed.

(** ** Strings and paths *)

Section string_facts.
Import PyStr.

Lemma split_last_None c s : contains c s = false → split_last c s = None.
Proof.
  induction s as [|a r IH]; simpl; [done|].
  intros [Ha Hr]%orb_false_iff. rewrite (IH Hr), Ha. done.
Qed.

Lemma split_last_Some c s h t :
  split_last c s = Some (h, t) →
  s = h +:+ String c t ∧ contains c t = false.
Proof.
  revert h. induction s as [|a r IH]; intros h; simpl; [done|].
  destruct (split_last c r) as [[h' t']|] eqn:Hr.
  - intros [= <- <-]. destruct (IH h' eq_refl) as [-> Ht]. done.
  - case_bool_decide as Ha; [|done]. intros [= <- <-]. subst a.
    split; [done|].
    clear IH. induction r as [|b r IH]; simpl in *; [done|].
    destruct (split_last c r) as [[??]|]; [done|].
    case_bool_decide; [done|]. simpl. by apply IH.
Qed.

Lemma startswith_sep_app s t :
  startswith_sep s = true → startswith_sep (s +:+ t) = true.
Proof. by destruct s. Qed.

Lemma join_absolute a b : startswith_sep b = true → posixpath.join a b = b.
Proof. unfold posixpath.join. by intros ->. Qed.

Lemma standardize_absolute f :
  startswith_sep f = true → startswith_sep (Fn.standardize f) = true.
Proof.
  intros Hf. unfold Fn.standardize. case_bool_decide as Hdot.
  - by subst f.
  - by rewrite Hf.
Qed.

Lemma to_os_specific_absolute f :
  startswith_sep f = true → startswith_sep (Fn.to_os_specific f) = true.
Proof.
  intros Hf. unfold Fn.to_os_specific. case_bool_decide as He.
  - by subst f.
  - by apply standardize_absolute.
Qed.

Lemma make_relative_to_local d f :
  Fn.is_local f = true → Fn.make_relative_to d f = (f, false).
Proof.
  unfold Fn.is_local, Fn.make_relative_to. intros ->.
  by rewrite orb_true_r.
Qed.

End string_facts.

(** ** Default paths (lines 115-130) *)

Lemma default_dst_no_dot src :
  PyStr.contains "." src = false → default_dst src = src +:+ ".bam".
Proof.
  intros H. unfold default_dst, PyStr.rsplit1_head.
  by rewrite (split_last_None _ _ H).
Qed.

Lemma default_dst_last_dot src h t :
  PyStr.split_last "." src = Some (h, t) → default_dst src = h +:+ ".bam".
Proof. intros H. unfold default_dst, PyStr.rsplit1_head. by rewrite H. Qed.

(** The assets directory defaults to the directory of the source file. *)
Lemma assets_dir_default wd args :
  arg_assets_dir args = None →
  assets_dir (resolve_paths wd args)
  = Fn.make_absolute wd (Fn.get_dirname (src (resolve_paths wd args))).
Proof. intros H. unfold resolve_paths. by rewrite H. Qed.

(** The output directory is the directory of the destination file. *)
Lemma outdir_is_dst_dirname wd args :
  outdir (resolve_paths wd args) = Fn.get_dirname (dst (resolve_paths wd args)).
Proof. done. Qed.

Lemma split_last_app_Some c a b x y :
  PyStr.split_last c b = Some (x, y) →
  PyStr.split_last c (a +:+ b) = Some (a +:+ x, y).
Proof.
  intros Hb. induction a as [|z a IH]; [done|].
  change (String z a +:+ b) with (String z (a +:+ b)). simpl.
  by rewrite IH.
Qed.

(** When the basename of the source has a dot, the default destination is
    the source with its extension replaced by [bam]. *)
Lemma default_dst_replaces_extension src :
  PyStr.contains "." (Fn.get_basename src) = true →
  default_dst src = Fn.get_fullpath_wo_extension src +:+ ".bam".
Proof.
  unfold default_dst, PyStr.rsplit1_head, Fn.get_fullpath_wo_extension,
    Fn.get_basename, Fn.before_basename.
  destruct (PyStr.split_last "/" src) as [[h t]|] eqn:Hslash.
  - intros Hdot.
    destruct (PyStr.split_last "." t) as [[stem e]|] eqn:Ht.
    2:{ destruct (PyStr.split_last "." t) eqn:Hn in Ht; [done|].
        clear Ht. revert Hdot Hn. clear.
        induction t as [|a t IH]; simpl; [done|].
        destruct (PyStr.split_last "." t) as [[??]|]; [done|].
        case_bool_decide; [done|]. simpl. intros Hd _. by apply IH. }
    destruct (split_last_Some _ _ _ _ Hslash) as [-> _].
    assert (Hs : PyStr.split_last "." (String "/" t)
                 = Some (String "/" stem, e)).
    { simpl. by rewrite Ht. }
    rewrite (split_last_app_Some _ h _ _ _ Hs).
    f_equal. clear. induction h as [|a h IH]; [done|].
    change (String a (h +:+ String "/" stem)
            = String a ((h +:+ "/") +:+ stem)).
    by rewrite IH.
  - intros Hdot. destruct (PyStr.split_last "." src) as [[stem e]|]; done.
Qed.

Example default_dst_model_gltf : default_dst "model.gltf" = "model.bam".
Proof. reflexivity. Qed.

(** C10.  The default destination cuts the whole source string at its last
    dot: a source without any dot gets [.bam] appended, a source with a dot
    is cut where the last one stands, wherever that is; so
    [models.v1/scene], whose only dot is in the directory, gives
    [models.bam] and not [models.v1/scene.bam]. *)
Theorem C10_default_dst_splits_whole_path :
  (∀ src, PyStr.contains "." src = false → default_dst src = src +:+ ".bam")
  ∧ (∀ src h t, PyStr.split_last "." src = Some (h, t) →
       src = h +:+ String "." t ∧ PyStr.contains "." t = false
       ∧ default_dst src = h +:+ ".bam")
  ∧ default_dst "models.v1/scene" = "models.bam"
  ∧ default_dst "models.v1/scene" ≠ "models.v1/scene.bam".
Proof.
  split; [exact default_dst_no_dot|].
  split.
  - intros src h t H. destruct (split_last_Some _ _ _ _ H) as [Hs Ht].
    by rewrite (default_dst_last_dot _ _ _ H).
  - split; [reflexivity|]. by vm_compute.
Qed.

Lemma C10_default_dst_splits_whole_path_witness :
  default_dst "scene" = "scene.bam"
  ∧ default_dst "a.b/c.gltf" = "a.b/c.bam".
Proof.
  split.
  - apply (proj1 C10_default_dst_splits_whole_path "scene"). reflexivity.
  - apply (proj1 (proj2 C10_default_dst_splits_whole_path)
             "a.b/c.gltf" "a.b/c" "gltf"). reflexivity.
Defined.

(** C9.  With no destination given, the source [models.v1/scene] run from
    [/work] resolves to the destination [/work/models.bam], outside the
    directory of the source, while the source with the target extension is
    [/work/models.v1/scene.bam]; the assets directory still is the directory
    of the source and the output directory the directory of the
    destination. *)
Theorem C9_default_destination_dotted_directory :
  let p := resolve_paths "/work" args_dotted_dir in
  src p = "/work/models.v1/scene"
  ∧ Fn.get_extension (src p) = ""
  ∧ dst p = "/work/models.bam"
  ∧ dst p ≠ "/work/models.v1/scene.bam"
  ∧ assets_dir p = "/work/models.v1"
  ∧ outdir p = "/work".
Proof. vm_compute. repeat split; done. Qed.

(** ** The two texture modes (line 162) *)

Lemma with_textures_same args : with_textures (arg_textures args) args = args.
Proof. by destruct args. Qed.

Lemma mode_test_true (mode : TexturesMode) :
  bool_decide (mode = copy) || bool_decide (mode = ref) = true.
Proof. by destruct mode. Qed.

Lemma relocate_texture_body args p t w :
  relocate_texture args p t w = relocate_body p t w.
Proof.
  unfold relocate_texture, relocate_body, bind, get_filename.
  by rewrite mode_test_true.
Qed.

Lemma for_each_ext {A} (xs : list A) (f g : A → M unit) w :
  (∀ x w', f x w' = g x w') → for_each xs f w = for_each xs g w.
Proof.
  intros Hfg. revert w. induction xs as [|x xs IH]; intros w; simpl; [done|].
  unfold bind. rewrite Hfg. destruct (g x w) as [w' [[]|e]]; [apply IH|done].
Qed.

(** C6.  The modes [ref] and [copy] run the same job: from the same
    arguments otherwise, converter and world, [main] ends in the same world
    (file system, texture filenames, trace of copies and writes) with the
    same outcome. *)
Theorem C6_ref_and_copy_agree run_converter args w :
  main run_converter (with_textures ref args) w
  = main run_converter (with_textures copy args) w.
Proof.
  unfold main, bind, os_getcwd.
  change (settings_of (with_textures ref args)) with (settings_of args).
  change (settings_of (with_textures copy args)) with (settings_of args).
  change (resolve_paths (cwd w) (with_textures ref args))
    with (resolve_paths (cwd w) args).
  change (resolve_paths (cwd w) (with_textures copy args))
    with (resolve_paths (cwd w) args).
  destruct (run_converter _ _ _ w) as [w1 [conv|e]]; [|done].
  unfold emit, relocate_textures, bind. simpl arg_print_scene.
  destruct (os_makedirs _ w1) as [w2 [[]|e]]; [|done].
  destruct (_ w2) as [w3 [[]|e]]; [|done].
  destruct (collect_textures conv w3) as [w4 [ts|e]]; [|done].
  rewrite (for_each_ext ts
             (relocate_texture (with_textures ref args) (resolve_paths (cwd w) args))
             (relocate_texture (with_textures copy args) (resolve_paths (cwd w) args)));
    [done|].
  intros x w'. by rewrite !relocate_texture_body.
Qed.

(** ** The file system operations *)

Section fs_facts.
Import FS.

Lemma mkdirs_go_lookup blocked base todo m m' o k :
  mkdirs_go blocked base todo m = (m', o) →
  m' !! k = m !! k ∨ (m !! k = None ∧ m' !! k = Some Dir).
Proof.
  revert base m. induction todo as [|c rest IH]; intros base m; simpl.
  - intros [= <- <-]. by left.
  - destruct (m !! (base ++ [c])%list) as [[|c0]|] eqn:Hhere.
    + apply IH.
    + intros [= <- <-]. by left.
    + intros H. destruct (IH _ _ H) as [Hk|[Hk1 Hk2]].
      * destruct (decide (k = (base ++ [c])%list)) as [->|Hne].
        -- right. split; [done|]. rewrite Hk. apply lookup_insert_eq.
        -- left. by rewrite Hk, lookup_insert_ne.
      * right. split; [|done].
        destruct (decide (k = (base ++ [c])%list)) as [->|Hne]; [done|].
        by rewrite lookup_insert_ne in Hk1.
Qed.

Lemma is_dir_mkdirs_go blocked base todo m m' k :
  mkdirs_go blocked base todo m = (m', None) →
  is_dir m k = true → is_dir m' k = true.
Proof.
  intros H. unfold is_dir.
  destruct (mkdirs_go_lookup _ _ _ _ _ _ k H) as [->|[-> ->]]; done.
Qed.

Lemma mkdirs_go_is_dir blocked base todo m m' :
  mkdirs_go blocked base todo m = (m', None) →
  is_dir m base = true → is_dir m' (base ++ todo) = true.
Proof.
  revert base m. induction todo as [|c rest IH]; intros base m; simpl.
  - intros [= <-]. by rewrite app_nil_r.
  - intros H Hbase.
    replace (base ++ c :: rest)%list with ((base ++ [c]) ++ rest)%list
      by by rewrite <- app_assoc.
    assert (Hne : ∀ x : fnode, is_dir (<[(base ++ [c])%list := x]> m)
                    (base ++ [c]) = match x with Dir => true | _ => false end).
    { intros x. unfold is_dir. rewrite lookup_insert_eq.
      destruct x; [done|]. case_bool_decide; [by destruct base|done]. }
    destruct (m !! (base ++ [c])%list) as [[|c0]|] eqn:Hhere; [| done |].
    + apply (IH _ _ H). unfold is_dir. by rewrite Hhere.
    + apply (IH _ _ H). by rewrite Hne.
Qed.

(** A successful [makedirs] leaves a directory at the path, keeps every
    node there was and only adds directories. *)
Lemma makedirs_ok wd name m m' :
  makedirs wd name m = (m', None) →
  is_dir m' (resolve wd name) = true
  ∧ ∀ k, m' !! k = m !! k ∨ (m !! k = None ∧ m' !! k = Some Dir).
Proof.
  unfold makedirs. case_bool_decide as Hname; [done|]. intros H. split.
  - apply (mkdirs_go_is_dir _ [] _ _ _ H). unfold is_dir.
    by repeat case_match.
  - intros k. by apply (mkdirs_go_lookup _ _ _ _ _ _ k H).
Qed.

Lemma write_ok wd dst c m m' :
  write wd dst c m = (m', None) →
  m' = <[resolve wd dst := File c]> m
  ∧ is_dir m (resolve wd dst) = false
  ∧ is_dir m (parent (resolve wd dst)) = true.
Proof.
  unfold write.
  destruct (is_dir m (resolve wd dst)) eqn:H1; [done|].
  destruct (is_dir m (parent (resolve wd dst))) eqn:H2;
    [|by repeat case_match].
  by intros [= <-].
Qed.

(** Whatever its outcome, [makedirs] keeps every node there was. *)
Lemma makedirs_keeps wd name m m' o k :
  makedirs wd name m = (m', o) →
  m' !! k = m !! k ∨ (m !! k = None ∧ m' !! k = Some Dir).
Proof.
  unfold makedirs. case_bool_decide as Hname.
  - intros [= <- <-]. by left.
  - apply mkdirs_go_lookup.
Qed.

(** A successful [shutil.copy] found a regular file at the source and
    left its content at the target; nothing else changed. *)
Lemma copy_ok wd src dst m m' :
  copy wd src dst m = (m', None) →
  ∃ c, m !! resolve wd src = Some (File c)
       ∧ m' = <[resolve wd (copy_target wd src dst m) := File c]> m
       ∧ is_dir m (resolve wd (copy_target wd src dst m)) = false.
Proof.
  unfold copy.
  destruct (is_dir m (resolve wd src)) eqn:Hd.
  { by case_bool_decide. }
  destruct (m !! resolve wd src) as [[|c]|] eqn:Hs; [by case_bool_decide| |done].
  case_bool_decide; [done|].
  intros (-> & ? & ?)%write_ok. by exists c.
Qed.

(** [shutil.copy] of a source that is not there raises
    [FileNotFoundError] for the source and changes nothing. *)
Lemma copy_missing wd src dst m :
  is_dir m (resolve wd src) = false →
  m !! resolve wd src = None →
  copy wd src dst m = (m, Some (FileNotFoundError src)).
Proof. unfold copy. by intros -> ->. Qed.

Lemma copy_fs_on_error wd src dst m m' e :
  copy wd src dst m = (m', Some e) → m' = m.
Proof.
  unfold copy, write.
  repeat (case_match; try case_bool_decide); by intros [= <-].
Qed.

End fs_facts.

(** ** One texture (lines 153-171) *)

Lemma relocate_texture_eq args p t w :
  relocate_texture args p t w =
    if bool_decide (texsrc_of p (declared w t) ≠ texdst_of p (declared w t))
    then (os_makedirs (posixpath.dirname (texdst_of p (declared w t))) ;;
          shutil_copy (texsrc_of p (declared w t)) (texdst_of p (declared w t)))
           (retarget p t w)
    else (retarget p t w, Ok tt).
Proof.
  rewrite relocate_texture_body. unfold relocate_body, bind, get_filename.
  simpl. fold (declared w t). by case_bool_decide.
Qed.

Lemma retarget_fs p t w : fs (retarget p t w) = fs w.
Proof. done. Qed.
Lemma retarget_cwd p t w : cwd (retarget p t w) = cwd w.
Proof. done. Qed.
Lemma retarget_heap p t w : heap (retarget p t w) = rewritten_heap p t w.
Proof. done. Qed.
Lemma retarget_trace p t w :
  ∃ l1 l2, trace (retarget p t w) = (trace w ++ [EvPrint l1; EvPrint l2])%list.
Proof.
  eexists _, _. unfold retarget, log. simpl. by rewrite <- app_assoc.
Qed.

Lemma rewritten_heap_lookup p t w :
  rewritten_heap p t w !! t
  = (λ tx, mkTexture (relpath_of p (filename tx)) (fullpath tx)) <$> heap w !! t.
Proof.
  unfold rewritten_heap, declared. rewrite lookup_alter_eq.
  by destruct (heap w !! t).
Qed.

Lemma rewritten_heap_lookup_ne p t w t' :
  t ≠ t' → rewritten_heap p t w !! t' = heap w !! t'.
Proof. intros. unfold rewritten_heap. by rewrite lookup_alter_ne. Qed.

(** The outcome of the copying step, from the world [w2] it starts in. *)
Lemma copy_step_ok dir texsrc texdst w2 w3 :
  (os_makedirs dir ;; shutil_copy texsrc texdst) w2 = (w3, Ok tt) →
  ∃ m1 c,
    FS.makedirs (cwd w2) dir (fs w2) = (m1, None)
    ∧ fs w2 !! FS.resolve (cwd w2) texsrc = Some (File c)
    ∧ fs w3 = <[FS.resolve (cwd w2) (FS.copy_target (cwd w2) texsrc texdst m1)
                 := File c]> m1
    ∧ heap w3 = heap w2 ∧ cwd w3 = cwd w2
    ∧ trace w3 = (trace w2 ++ [EvMakedirs dir; EvCopy texsrc texdst])%list.
Proof.
  unfold bind, os_makedirs, shutil_copy, fs_call. simpl.
  destruct (FS.makedirs (cwd w2) dir (fs w2)) as [m1 [e|]] eqn:Hmk; [done|].
  simpl.
  destruct (FS.copy (cwd w2) texsrc texdst m1) as [m2 [e|]] eqn:Hcp; [done|].
  intros [= <-]. simpl.
  destruct (copy_ok _ _ _ _ _ Hcp) as (c & Hsrc & -> & _).
  destruct (makedirs_ok _ _ _ _ Hmk) as [_ Hk].
  exists m1, c. repeat split; [|by rewrite <- app_assoc].
  destruct (Hk (FS.resolve (cwd w2) texsrc)) as [<-|[_ Hd]]; [done|].
  by rewrite Hd in Hsrc.
Qed.

Example paths_in_to_out_eq :
  paths_in_to_out
  = mkPaths "/in/model.gltf" "/out/model.bam" "/in" "/out" "/in".
Proof. reflexivity. Qed.

Example paths_in_place_eq :
  paths_in_place = mkPaths "/in/model.gltf" "/in/model.bam" "/in" "/in" "/in".
Proof. reflexivity. Qed.

(** ** Shared textures *)

(** The copying step touches neither the heap nor the working directory,
    and adds to the trace the call of [os.makedirs] and, when that
    succeeded, the call of [shutil.copy]. *)
Lemma copy_step_frame dir texsrc texdst w2 w3 r :
  (os_makedirs dir ;; shutil_copy texsrc texdst) w2 = (w3, r) →
  heap w3 = heap w2 ∧ cwd w3 = cwd w2
  ∧ (trace w3 = (trace w2 ++ [EvMakedirs dir])%list
     ∨ trace w3 = (trace w2 ++ [EvMakedirs dir; EvCopy texsrc texdst])%list).
Proof.
  unfold bind, os_makedirs, shutil_copy, fs_call. simpl.
  destruct (FS.makedirs (cwd w2) dir (fs w2)) as [m1 [e|]]; simpl.
  { intros [= <- <-]. simpl. by repeat split; left. }
  destruct (FS.copy (cwd w2) texsrc texdst m1) as [m2 [e|]];
    intros [= <- <-]; simpl; repeat split; right; by rewrite <- app_assoc.
Qed.

(** Whatever the outcome of the step, the heap it leaves is the heap with
    the one texture object rewritten. *)
Lemma relocate_texture_heap args p t w w' r :
  relocate_texture args p t w = (w', r) → heap w' = rewritten_heap p t w.
Proof.
  rewrite relocate_texture_eq. case_bool_decide.
  - intros (-> & _)%copy_step_frame. apply retarget_heap.
  - by intros [= <- <-].
Qed.

Lemma relocate_texture_declared args p t w w' r :
  relocate_texture args p t w = (w', r) →
  declared w' t = relpath_of p (declared w t).
Proof.
  intros Hh%relocate_texture_heap. unfold declared at 1.
  rewrite Hh, rewritten_heap_lookup. unfold declared.
  by destruct (heap w !! t).
Qed.

(** C4.  The step writes the filename into the one texture object: every
    node that holds the texture, in whichever slot, sees the rewritten
    filename afterwards, and the heap has the same objects as before (no
    copy of the texture is made for a node). *)
Theorem C4_shared_texture_rewritten_once args p t w w' r tx :
  relocate_texture args p t w = (w', r) →
  heap w !! t = Some tx →
  (∀ n i, textures_of n !! i = Some t →
      node_texture w' n i
      = Some (mkTexture (relpath_of p (filename tx)) (fullpath tx)))
  ∧ (∀ n1 i1 n2 i2,
      textures_of n1 !! i1 = Some t → textures_of n2 !! i2 = Some t →
      node_texture w' n1 i1 = node_texture w' n2 i2)
  ∧ dom (heap w') = dom (heap w).
Proof.
  intros Hrun Htx. pose proof (relocate_texture_heap _ _ _ _ _ _ Hrun) as Hh.
  assert (Hseen : ∀ n i, textures_of n !! i = Some t →
            node_texture w' n i
            = Some (mkTexture (relpath_of p (filename tx)) (fullpath tx))).
  { intros n i Hn. unfold node_texture. rewrite Hn. simpl.
    by rewrite Hh, rewritten_heap_lookup, Htx. }
  split; [exact Hseen|]. split.
  - intros n1 i1 n2 i2 H1 H2. by rewrite (Hseen _ _ H1), (Hseen _ _ H2).
  - rewrite Hh. unfold rewritten_heap. apply dom_alter_L.
Qed.

Lemma C4_shared_texture_rewritten_once_witness :
  node_texture world_abs_relocated node_wall 0
  = Some (mkTexture "tex/a.png" "/in/tex/a.png")
  ∧ node_texture world_abs_relocated node_floor 1
    = node_texture world_abs_relocated node_wall 0.
Proof.
  destruct (C4_shared_texture_rewritten_once
              (job_args "/out/model.bam" None embed) paths_in_to_out 0
              world_abs_texture world_abs_relocated
              (snd (relocate_texture (job_args "/out/model.bam" None embed)
                      paths_in_to_out 0 world_abs_texture))
              (mkTexture "/in/tex/a.png" "/in/tex/a.png")
              ltac:(by vm_compute) ltac:(by vm_compute))
    as (Hseen & Hsame & _).
  split.
  - apply (Hseen node_wall 0). reflexivity.
  - apply (Hsame node_floor 1 node_wall 0); reflexivity.
Defined.

(** ** The destination path *)

(** An absolute filename resolves to itself under both directories. *)
Lemma absolute_resolves_to_itself p f :
  Fn.is_local f = false →
  texsrc_of p f = Fn.to_os_specific f ∧ texdst_of p f = Fn.to_os_specific f.
Proof.
  unfold Fn.is_local. intros Hf%negb_false_iff.
  unfold texsrc_of, texdst_of.
  by rewrite !join_absolute by by apply to_os_specific_absolute.
Qed.

(** Only a filename that is not absolute can have different source and
    destination paths, and such a filename is left as it is by the
    rewrite. *)
Lemma copy_needs_local p f :
  texsrc_of p f ≠ texdst_of p f → Fn.is_local f = true ∧ relpath_of p f = f.
Proof.
  intros Hne. destruct (Fn.is_local f) eqn:Hl.
  - split; [done|]. unfold relpath_of. by rewrite make_relative_to_local.
  - destruct (absolute_resolves_to_itself p f Hl) as [Hs Hd]. congruence.
Qed.

(** An absolute filename below the assets directory: the step rewrites it to
    [tex/a.png], yet the destination path it computed and printed is the
    absolute filename itself, not [/out/tex/a.png]. *)
Lemma C7_counterexample :
  declared world_abs_relocated 0 = "tex/a.png"
  ∧ texdst_of paths_in_to_out (declared world_abs_texture 0) = "/in/tex/a.png"
  ∧ texdst_of paths_in_to_out (declared world_abs_relocated 0)
    = "/out/tex/a.png"
  ∧ EvPrint "Copying texture /in/tex/a.png to /in/tex/a.png"
      ∈ trace world_abs_relocated
  ∧ ¬ destination_from_rewritten paths_in_to_out world_abs_texture 0.
Proof.
  split; [reflexivity|]. split; [reflexivity|]. split; [reflexivity|].
  split.
  - vm_compute. apply list_elem_of_In. right. by left.
  - unfold destination_from_rewritten. by vm_compute.
Qed.

(** C7, amended.  The destination path is the output directory joined with
    the filename as it is before the rewrite.  Whenever the step copies
    (the source and destination paths differ) the rewrite has left the
    filename as it was, so the destination of [shutil.copy] is the output
    directory joined with the filename the texture has afterwards.  For an
    absolute filename the destination path is that filename itself, equal
    to the source path, and nothing is copied. *)
Theorem C7_destination_from_filename_before_rewrite args p t w w' r :
  relocate_texture args p t w = (w', r) →
  (texsrc_of p (declared w t) ≠ texdst_of p (declared w t) →
     declared w' t = declared w t
     ∧ ∀ s d, EvCopy s d ∈ trace w' →
         EvCopy s d ∈ trace w ∨ d = texdst_of p (declared w' t))
  ∧ (Fn.is_local (declared w t) = false →
       texdst_of p (declared w t) = Fn.to_os_specific (declared w t)
       ∧ texsrc_of p (declared w t) = texdst_of p (declared w t)
       ∧ fs w' = fs w
       ∧ ∀ s d, EvCopy s d ∈ trace w' → EvCopy s d ∈ trace w).
Proof.
  intros Hrun. split.
  - intros Hne. destruct (copy_needs_local _ _ Hne) as [_ Hrel].
    pose proof (relocate_texture_declared _ _ _ _ _ _ Hrun) as Hd.
    rewrite Hrel in Hd. split; [done|]. rewrite Hd.
    rewrite relocate_texture_eq, bool_decide_eq_true_2 in Hrun by done.
    destruct (copy_step_frame _ _ _ _ _ _ Hrun) as (_ & _ & Htr).
    destruct (retarget_trace p t w) as (l1 & l2 & Hl).
    intros s d. rewrite Hl in Htr.
    destruct Htr as [-> | ->]; rewrite !elem_of_app;
      rewrite ?elem_of_cons, ?elem_of_nil; naive_solver.
  - intros Hl. destruct (absolute_resolves_to_itself p _ Hl) as [Hs Hd].
    split; [done|]. split; [congruence|].
    rewrite relocate_texture_eq, bool_decide_eq_false_2 in Hrun
      by (intros Hne; apply Hne; congruence).
    injection Hrun as <- <-. split; [done|].
    destruct (retarget_trace p t w) as (l1 & l2 & Htr).
    intros s d. rewrite Htr, elem_of_app, !elem_of_cons, elem_of_nil.
    naive_solver.
Qed.

Lemma C7_destination_from_filename_before_rewrite_witness :
  (declared (fst (relocate_texture (job_args "/out/model.bam" None embed)
                    paths_in_to_out 0 world_one_texture)) 0 = "tex/a.png")
  ∧ texdst_of paths_in_to_out "/in/tex/a.png" = "/in/tex/a.png".
Proof.
  split.
  - apply (proj1 (C7_destination_from_filename_before_rewrite
             (job_args "/out/model.bam" None embed) paths_in_to_out 0
             world_one_texture _ _ ltac:(apply surjective_pairing))
             ltac:(by vm_compute)).
  - apply (proj2 (C7_destination_from_filename_before_rewrite
             (job_args "/out/model.bam" None embed) paths_in_to_out 0
             world_abs_texture _ _ ltac:(apply surjective_pairing))
             ltac:(reflexivity)).
Defined.

(** ** Filenames with nothing in common with the assets directory *)

Lemma make_relative_to_no_common d f :
  no_common_root d f →
  snd (Fn.make_relative_to d f) = false
  ∧ (fst (Fn.make_relative_to d f) = f
     ∨ fst (Fn.make_relative_to d f) = Fn.standardize f).
Proof.
  unfold no_common_root, Fn.make_relative_to. intros Hc.
  destruct (_ || _); [by auto|].
  case_bool_decide; [by auto|].
  rewrite bool_decide_eq_true_2 by done. by auto.
Qed.

(** A step raises only when it copies: the exception is the one of
    [os.makedirs] or of [shutil.copy]. *)
Lemma relocate_texture_raise args p t w w' e :
  relocate_texture args p t w = (w', Raise e) →
  texsrc_of p (declared w t) ≠ texdst_of p (declared w t)
  ∧ (os_makedirs (posixpath.dirname (texdst_of p (declared w t))) ;;
     shutil_copy (texsrc_of p (declared w t)) (texdst_of p (declared w t)))
      (retarget p t w) = (w', Raise e).
Proof. rewrite relocate_texture_eq. by case_bool_decide. Qed.

(** The texture [/x/t.png] and the assets directory [/in] have only the
    root in common; the job runs to its end and the filename stays. *)
Lemma C8_counterexample :
  no_common_root "/in" "/x/t.png"
  ∧ snd (main (converted scene_one_geom) (job_args "/out/model.bam" None embed)
           world_foreign_texture) = Ok tt
  ∧ declared (fst (main (converted scene_one_geom)
                     (job_args "/out/model.bam" None embed)
                     world_foreign_texture)) 0 = "/x/t.png"
  ∧ ¬ aborts_without_common_root (converted scene_one_geom)
        (job_args "/out/model.bam" None embed) world_foreign_texture 0.
Proof.
  assert (Hn : no_common_root "/in" "/x/t.png").
  { unfold no_common_root. vm_compute. lia. }
  split; [exact Hn|]. split; [by vm_compute|]. split; [by vm_compute|].
  intros Habs. destruct (Habs Hn) as [e He]. by vm_compute in He.
Qed.

(** C8, amended.  Making a filename relative raises nothing.  For an
    absolute filename that shares no leading directory with the assets
    directory [makeRelativeTo] returns false and the filename stays
    absolute (as it was, or standardized); the step ends normally without
    touching the file system, so the job goes on.  A step raises only from
    its copy. *)
Theorem C8_no_common_root_is_not_an_error args p t w :
  (Fn.is_local (declared w t) = false →
   no_common_root (assets_dir p) (declared w t) →
     snd (Fn.make_relative_to (assets_dir p) (declared w t)) = false
     ∧ relocate_texture args p t w = (retarget p t w, Ok tt)
     ∧ fs (retarget p t w) = fs w
     ∧ (declared (retarget p t w) t = declared w t
        ∨ declared (retarget p t w) t = Fn.standardize (declared w t)))
  ∧ (∀ w' e, relocate_texture args p t w = (w', Raise e) →
       texsrc_of p (declared w t) ≠ texdst_of p (declared w t)
       ∧ (os_makedirs (posixpath.dirname (texdst_of p (declared w t))) ;;
          shutil_copy (texsrc_of p (declared w t))
                      (texdst_of p (declared w t)))
           (retarget p t w) = (w', Raise e)).
Proof.
  split; [|intros w' e; apply relocate_texture_raise].
  intros Hl Hn.
  destruct (make_relative_to_no_common _ _ Hn) as [Hsnd Hfst].
  destruct (absolute_resolves_to_itself p _ Hl) as [Hs Hd].
  assert (Hrun : relocate_texture args p t w = (retarget p t w, Ok tt)).
  { rewrite relocate_texture_eq, bool_decide_eq_false_2; [done|].
    intros Hne. apply Hne. congruence. }
  split; [done|]. split; [done|]. split; [done|].
  rewrite (relocate_texture_declared _ _ _ _ _ _ Hrun). exact Hfst.
Qed.

Lemma C8_no_common_root_is_not_an_error_witness :
  relocate_texture (job_args "/out/model.bam" None embed) paths_in_to_out 0
    world_foreign_texture
  = (retarget paths_in_to_out 0 world_foreign_texture, Ok tt)
  ∧ texsrc_of paths_in_to_out (declared world_a_copied 1)
    ≠ texdst_of paths_in_to_out (declared world_a_copied 1).
Proof.
  split.
  - apply (proj1 (C8_no_common_root_is_not_an_error
                    (job_args "/out/model.bam" None embed) paths_in_to_out 0
                    world_foreign_texture)).
    + reflexivity.
    + unfold no_common_root. vm_compute. lia.
  - apply (proj2 (C8_no_common_root_is_not_an_error
                    (job_args "/out/model.bam" None embed) paths_in_to_out 1
                    world_a_copied)
             (fst (relocate_texture (job_args "/out/model.bam" None embed)
                     paths_in_to_out 1 world_a_copied))
             (FileNotFoundError "/in/tex/b.png")).
    vm_compute. reflexivity.
Defined.

(** ** What [makeRelativeTo] returns *)

Section relative_facts.
Import PyStr.

Lemma app_cons (a : ascii) (s t : string) :
  String a s +:+ t = String a (s +:+ t).
Proof. reflexivity. Qed.

Lemma app_nil_l_str (t : string) : "" +:+ t = t.
Proof. reflexivity. Qed.

Ltac str_simpl := simpl; rewrite ?app_cons, ?app_nil_l_str; simpl.
Ltac str_simpl_in H :=
  simpl in H; rewrite ?app_cons, ?app_nil_l_str in H; simpl in H.

Lemma app_empty_r (s : string) : s +:+ "" = s.
Proof. induction s as [|a s IH]; [done|]. str_simpl. by rewrite IH. Qed.

Lemma app_assoc_str (a b c : string) : (a +:+ b) +:+ c = a +:+ b +:+ c.
Proof. induction a as [|x a IH]; [done|]. str_simpl. by rewrite IH. Qed.

Lemma take_drop_str n s : take n s +:+ drop n s = s.
Proof.
  revert s. induction n as [|n IH]; intros [|a s]; str_simpl; try done.
  by rewrite IH.
Qed.

Lemma drop_app_length h s : drop (String.length h) (h +:+ s) = s.
Proof. induction h as [|a h IH]; [by destruct s|]. str_simpl. apply IH. Qed.

Lemma drop_app_length_S h a s :
  drop (S (String.length h)) (h +:+ String a s) = s.
Proof. induction h as [|b h IH]; [done|]. str_simpl. apply IH. Qed.

Lemma split_sep_components s : Forall (λ c, contains "/" c = false) (split_sep s).
Proof.
  induction s as [|a s IH]; simpl; [by repeat constructor|].
  unfold is_sep. case_bool_decide as Ha.
  - by constructor.
  - destruct (split_sep s) as [|h t]; [by repeat constructor; simpl;
      rewrite bool_decide_eq_false_2|].
    inversion_clear IH. constructor; [|done].
    simpl. by rewrite bool_decide_eq_false_2.
Qed.

Lemma components_are_components f : Forall component (Fn.components f).
Proof.
  unfold Fn.components. apply Forall_forall. intros c.
  rewrite list_elem_of_filter. intros [Hne Hin]. split; [done|].
  by apply (proj1 (Forall_forall _ _) (split_sep_components f)).
Qed.

Lemma standardize_step_components b stack c :
  Forall component stack → component c →
  Forall component (Fn.standardize_step b stack c).
Proof.
  intros Hs Hc. unfold Fn.standardize_step.
  destruct (bool_decide (c = ".") && negb b); [done|].
  destruct (bool_decide (c = "..")); [|by apply Forall_cons].
  destruct stack as [|top below]; [by apply Forall_cons|].
  destruct (bool_decide (top = "..")); [by apply Forall_cons|].
  inversion_clear Hs.
  destruct (bool_decide (top = ".")); [by apply Forall_cons|done].
Qed.

Lemma standardize_go_components b stack cs :
  Forall component stack → Forall component cs →
  Forall component (Fn.standardize_go b stack cs).
Proof.
  revert b stack. induction cs as [|c cs IH]; intros b stack Hs Hcs; [done|].
  inversion_clear Hcs. simpl. apply IH; [|done].
  by apply standardize_step_components.
Qed.

Lemma component_not_sep c s : component c → startswith_sep (c +:+ s) = false.
Proof.
  intros [Hne Hc]. destruct c as [|a c]; [done|]. simpl in *.
  unfold is_sep. by apply orb_false_iff in Hc as [-> _].
Qed.

Lemma component_then_sep c s :
  component c → startswith_sep s = false → no_double_sep s = true →
  no_double_sep (c +:+ String "/" s) = true.
Proof.
  intros [_ Hc] Hs Hn. induction c as [|a c IH]; str_simpl.
  - by rewrite Hs, Hn.
  - simpl in Hc. apply orb_false_iff in Hc as [Ha Hc].
    unfold is_sep at 1. rewrite Ha. simpl. by apply IH.
Qed.

Lemma component_alone c : component c → no_double_sep c = true.
Proof.
  intros [_ Hc]. induction c as [|a c IH]; [done|]. simpl in *.
  apply orb_false_iff in Hc as [Ha Hc]. unfold is_sep at 1.
  rewrite Ha. simpl. by apply IH.
Qed.

Lemma join_sep_clean cs :
  Forall component cs →
  startswith_sep (join_sep cs) = false ∧ no_double_sep (join_sep cs) = true.
Proof.
  induction 1 as [|c cs Hc Hcs [IH1 IH2]]; [done|].
  destruct cs as [|c' cs].
  - simpl. split; [|by apply component_alone].
    rewrite <- (app_empty_r c). by apply component_not_sep.
  - change (join_sep (c :: c' :: cs))
      with (c +:+ String "/" (join_sep (c' :: cs))).
    split; [by apply component_not_sep|by apply component_then_sep].
Qed.

(** A standardized absolute filename has no doubled slash. *)
Lemma standardize_no_double_sep f :
  startswith_sep f = true → no_double_sep (Fn.standardize f) = true.
Proof.
  intros Hf. unfold Fn.standardize. case_bool_decide as Hdot; [by subst f|].
  rewrite Hf. cbv zeta. simpl negb.
  destruct (join_sep_clean (rev (Fn.standardize_go false []
                                   (Fn.components f)))) as [H1 H2].
  { apply Forall_rev, standardize_go_components; [done|].
    apply components_are_components. }
  rewrite app_cons, app_nil_l_str.
  change (no_double_sep (String "/" ?s))
    with (negb (is_sep "/" && startswith_sep s) && no_double_sep s).
  by rewrite H1, H2.
Qed.

Lemma no_double_sep_after h s :
  no_double_sep (h +:+ String "/" s) = true → startswith_sep s = false.
Proof.
  induction h as [|a h IH]; str_simpl.
  - by intros [->%negb_true_iff _]%andb_true_iff.
  - intros [_ H]%andb_true_iff. by apply IH.
Qed.

Lemma backups_local n s :
  startswith_sep s = false → startswith_sep (Fn.backups n +:+ s) = false.
Proof. by destruct n. Qed.

(** When [makeRelativeTo] reports success the filename was absolute and
    the result is not. *)
Lemma make_relative_to_true d f :
  snd (Fn.make_relative_to d f) = true →
  Fn.is_local f = false ∧ Fn.is_local (fst (Fn.make_relative_to d f)) = true.
Proof.
  unfold Fn.make_relative_to, Fn.is_local.
  destruct (_ || _) eqn:Hguard; [done|].
  apply orb_false_iff in Hguard
    as [[_ Hf%negb_false_iff]%orb_false_iff _].
  cbv zeta.
  case_bool_decide as Hroot; [done|].
  case_bool_decide as Hc; [done|].
  cbv beta iota delta [fst snd]. intros _. split; [by rewrite Hf|].
  apply negb_true_iff, backups_local.
  pose proof (standardize_no_double_sep f Hf) as Hnd.
  revert Hc. generalize dependent (Fn.standardize f). intros f' Hnd.
  generalize (Fn.standardize d +:+ "/."). intros other.
  intros Hc. unfold Fn.get_common_prefix in *.
  pose proof (take_drop_str (Fn.common_initial f' other) f') as Htd.
  destruct (split_last "/" (take (Fn.common_initial f' other) f'))
    as [[h t]|] eqn:Hsp; [|lia].
  destruct (split_last_Some _ _ _ _ Hsp) as [Hh Ht].
  rewrite Hh, app_assoc_str in Htd. str_simpl_in Htd.
  remember (drop (Fn.common_initial f' other) f') as rest eqn:Hrest.
  clear Hrest Hh Hsp. subst f'.
  rewrite drop_app_length_S.
  destruct t as [|c t].
  - rewrite app_nil_l_str in *. by apply no_double_sep_after in Hnd.
  - rewrite app_cons. simpl in *. unfold is_sep.
    by apply orb_false_iff in Ht as [-> _].
Qed.

(** When it reports failure the filename keeps being absolute or not. *)
Lemma make_relative_to_false d f :
  snd (Fn.make_relative_to d f) = false →
  Fn.is_local (fst (Fn.make_relative_to d f)) = Fn.is_local f.
Proof.
  unfold Fn.make_relative_to, Fn.is_local.
  destruct (_ || _) eqn:Hguard; [done|].
  apply orb_false_iff in Hguard as [[[_ _]%orb_false_iff Hf%negb_false_iff]%orb_false_iff _].
  rewrite Hf. repeat case_bool_decide; try done; simpl; intros _;
    by rewrite standardize_absolute.
Qed.

End relative_facts.

(** ** Copying unless the paths are the same (lines 153-171) *)

(** [shutil.copy] onto the file it reads raises [SameFileError]. *)
Lemma copy_same wd src dst m c :
  m !! FS.resolve wd src = Some (File c) →
  FS.resolve wd src = FS.resolve wd (FS.copy_target wd src dst m) →
  FS.copy wd src dst m
  = (m, Some (SameFileError src (FS.copy_target wd src dst m))).
Proof.
  intros Hsrc Hsame. unfold FS.copy. cbv zeta.
  rewrite (bool_decide_eq_true_2 _ Hsame).
  destruct (FS.is_dir m (FS.resolve wd src)); [done|]. by rewrite Hsrc.
Qed.

(** Two textures of the claim.  [/x/t.png], with the assets directory
    [/in]: source and destination are the same path, nothing is copied, yet
    the filename stored is absolute as before.  [../shared/t.png], with the
    file there: the two paths differ and lead to the same file, and
    [shutil.copy] raises [SameFileError] instead of copying. *)
Lemma C2_counterexample :
  (texsrc_of paths_in_to_out (declared world_foreign_texture 0)
   = texdst_of paths_in_to_out (declared world_foreign_texture 0)
   ∧ declared (fst (relocate_texture (job_args "/out/model.bam" None embed)
                      paths_in_to_out 0 world_foreign_texture)) 0
     = "/x/t.png"
   ∧ ¬ copies_unless_same_path (job_args "/out/model.bam" None embed)
         paths_in_to_out world_foreign_texture 0)
  ∧ (texsrc_of paths_in_to_out (declared world_shared_texture 0)
     = "/in/../shared/t.png"
     ∧ texdst_of paths_in_to_out (declared world_shared_texture 0)
       = "/out/../shared/t.png"
     ∧ fs world_shared_texture !! ["shared"; "t.png"]
       = Some (File (Bytes "PNG-s"))
     ∧ snd (relocate_texture (job_args "/out/model.bam" None embed)
              paths_in_to_out 0 world_shared_texture)
       = Raise (SameFileError "/in/../shared/t.png" "/out/../shared/t.png")
     ∧ ¬ copies_unless_same_path (job_args "/out/model.bam" None embed)
           paths_in_to_out world_shared_texture 0).
Proof.
  split.
  - split; [by vm_compute|]. split; [by vm_compute|].
    intros [Hsame _]. destruct Hsame as [_ Hlocal]; [by vm_compute|].
    by vm_compute in Hlocal.
  - split; [by vm_compute|]. split; [by vm_compute|]. split; [by vm_compute|].
    split; [by vm_compute|].
    intros [_ Hcopy].
    destruct (Hcopy ltac:(by vm_compute) (Bytes "PNG-s") ltac:(by vm_compute))
      as [Hok _].
    by vm_compute in Hok.
Qed.

(** C2, amended.  The step stores the filename [makeRelativeTo] the assets
    directory leaves: a relative filename as it is; an absolute one made
    relative when [makeRelativeTo] succeeds, and still absolute when it does
    not.  An absolute filename, or an assets directory that is the output
    directory, makes source and destination the same path: then nothing is
    copied (the file system is untouched, the trace gains the two printed
    lines).  When the two paths differ the filename is relative and the step
    calls [os.makedirs] on the parent of the destination, then
    [shutil.copy]: if both succeed the parent is a directory and the content
    of the source file is at the copy's target; if the two paths lead to
    the same file the copy raises [SameFileError]. *)
Theorem C2_copy_unless_same_path args p t w :
  let fname := declared w t in
  let texsrc := texsrc_of p fname in
  let texdst := texdst_of p fname in
  let stored := declared (fst (relocate_texture args p t w)) t in
  stored = fst (Fn.make_relative_to (assets_dir p) fname)
  ∧ (Fn.is_local fname = true → stored = fname)
  ∧ (Fn.is_local fname = false →
       texsrc = texdst
       ∧ (snd (Fn.make_relative_to (assets_dir p) fname) = true →
            Fn.is_local stored = true)
       ∧ (snd (Fn.make_relative_to (assets_dir p) fname) = false →
            Fn.is_local stored = false))
  ∧ (assets_dir p = outdir p → texsrc = texdst)
  ∧ (texsrc = texdst →
       relocate_texture args p t w = (retarget p t w, Ok tt)
       ∧ fs (retarget p t w) = fs w
       ∧ (∃ l1 l2,
            trace (retarget p t w) = (trace w ++ [EvPrint l1; EvPrint l2])%list))
  ∧ (texsrc ≠ texdst →
       Fn.is_local fname = true
       ∧ relocate_texture args p t w
         = (os_makedirs (posixpath.dirname texdst) ;; shutil_copy texsrc texdst)
             (retarget p t w)
       ∧ (∀ w', relocate_texture args p t w = (w', Ok tt) →
           let made := FS.makedirs (cwd w) (posixpath.dirname texdst) (fs w) in
           snd made = None
           ∧ FS.is_dir (fst made)
               (FS.resolve (cwd w) (posixpath.dirname texdst)) = true
           ∧ (∃ c,
                fs w !! FS.resolve (cwd w) texsrc = Some (File c)
                ∧ fs w' !! FS.resolve (cwd w)
                             (FS.copy_target (cwd w) texsrc texdst (fst made))
                  = Some (File c))
           ∧ (∃ l1 l2, trace w' =
                (trace w ++ [EvPrint l1; EvPrint l2;
                             EvMakedirs (posixpath.dirname texdst);
                             EvCopy texsrc texdst])%list))
       ∧ (∀ c,
           let made := FS.makedirs (cwd w) (posixpath.dirname texdst) (fs w) in
           snd made = None →
           fst made !! FS.resolve (cwd w) texsrc = Some (File c) →
           FS.resolve (cwd w) texsrc
           = FS.resolve (cwd w)
               (FS.copy_target (cwd w) texsrc texdst (fst made)) →
           snd (relocate_texture args p t w)
           = Raise (SameFileError texsrc
                      (FS.copy_target (cwd w) texsrc texdst (fst made)))
           ∧ fs (fst (relocate_texture args p t w)) = fst made)).
Proof.
  intros fname texsrc texdst stored.
  assert (Hstored : stored = fst (Fn.make_relative_to (assets_dir p) fname)).
  { unfold stored.
    by rewrite (relocate_texture_declared args p t w _ _
                  (surjective_pairing _)). }
  split; [done|]. split; [|split; [|split; [|split]]].
  - intros Hl. by rewrite Hstored, make_relative_to_local.
  - intros Hl. split.
    { destruct (absolute_resolves_to_itself p fname Hl) as [Hs Hd].
      unfold texsrc, texdst. by rewrite Hs, Hd. }
    rewrite Hstored. split.
    + by intros [_ ?]%make_relative_to_true.
    + intros Hf%make_relative_to_false. by rewrite Hf.
  - unfold texsrc, texdst, texsrc_of, texdst_of. by intros ->.
  - intros Heq. rewrite relocate_texture_eq.
    fold fname. fold texsrc. fold texdst.
    rewrite bool_decide_eq_false_2 by (by intros ?).
    repeat split. apply retarget_trace.
  - intros Hne. split; [by apply (copy_needs_local p)|].
    rewrite relocate_texture_eq.
    fold fname. fold texsrc. fold texdst.
    rewrite bool_decide_eq_true_2 by done.
    split; [done|]. split.
    + intros w' Hrun.
      destruct (copy_step_ok _ _ _ _ _ Hrun)
        as (m1 & c & Hmk & Hsrc & Hfs & _ & _ & Htr).
      rewrite retarget_cwd, retarget_fs in *.
      intros made. unfold made. rewrite Hmk. simpl.
      split; [done|].
      split; [by apply (makedirs_ok _ _ _ _ Hmk)|].
      split; [exists c; by rewrite Hfs, lookup_insert_eq|].
      destruct (retarget_trace p t w) as (l1 & l2 & Hl).
      exists l1, l2. rewrite Htr, Hl. by rewrite <- app_assoc.
    + intros c made Hmk Hsrc Hsame. unfold made in *.
      unfold bind, os_makedirs, shutil_copy, fs_call. simpl.
      destruct (FS.makedirs (cwd w) (posixpath.dirname texdst) (fs w))
        as [m1 o] eqn:Hmade. simpl in Hmk, Hsrc, Hsame. subst o. simpl.
      by rewrite (copy_same _ _ _ _ c Hsrc Hsame).
Qed.

Lemma C2_copy_unless_same_path_witness :
  declared (fst (relocate_texture (job_args "/out/model.bam" None embed)
                   paths_in_to_out 0 world_abs_texture)) 0 = "tex/a.png"
  ∧ relocate_texture (job_args "" None embed) paths_in_place 0
      world_one_texture
    = (retarget paths_in_place 0 world_one_texture, Ok tt)
  ∧ (∃ c,
       fs_one_texture !! ["in"; "tex"; "a.png"] = Some (File c)
       ∧ fs (fst (relocate_texture (job_args "/out/model.bam" None embed)
                    paths_in_to_out 0 world_one_texture))
            !! ["out"; "tex"; "a.png"] = Some (File c))
  ∧ snd (relocate_texture (job_args "/out/model.bam" None embed)
           paths_in_to_out 0 world_shared_texture)
    = Raise (SameFileError "/in/../shared/t.png" "/out/../shared/t.png").
Proof.
  pose proof (C2_copy_unless_same_path (job_args "/out/model.bam" None embed)
                paths_in_to_out 0 world_abs_texture) as Habs.
  pose proof (C2_copy_unless_same_path (job_args "" None embed)
                paths_in_place 0 world_one_texture) as Hplace.
  pose proof (C2_copy_unless_same_path (job_args "/out/model.bam" None embed)
                paths_in_to_out 0 world_one_texture) as Hcopy.
  pose proof (C2_copy_unless_same_path (job_args "/out/model.bam" None embed)
                paths_in_to_out 0 world_shared_texture) as Hshared.
  cbv zeta in Habs, Hplace, Hcopy, Hshared.
  destruct Habs as (Hst & _).
  destruct Hplace as (_ & _ & _ & _ & Hsame & _).
  destruct Hcopy as (_ & _ & _ & _ & _ & Hdiff).
  destruct Hshared as (_ & _ & _ & _ & _ & Hsh).
  split; [|split; [|split]].
  - vm_compute in Hst. vm_compute. exact Hst.
  - apply Hsame. reflexivity.
  - destruct Hdiff as (_ & _ & Hok & _); [by vm_compute|].
    destruct (Hok (fst (relocate_texture (job_args "/out/model.bam" None embed)
                          paths_in_to_out 0 world_one_texture)))
      as (_ & _ & (c & Hsrc & Hdst) & _); [by vm_compute|].
    exists c. split; [exact Hsrc|].
    vm_compute in Hdst. vm_compute. exact Hdst.
  - destruct Hsh as (_ & _ & _ & Herr); [by vm_compute|].
    destruct (Herr (Bytes "PNG-s")) as [Hraise _]; [by vm_compute..|].
    vm_compute in Hraise. vm_compute. exact Hraise.
Defined.

(** ** The whole job (lines 136-182) *)

Lemma bam_writes_app a b :
  bam_writes (a ++ b) = (bam_writes a ++ bam_writes b)%list.
Proof. apply omap_app. Qed.

Lemma for_each_invariant {A} (I : world → Prop) (xs : list A)
    (body : A → M unit) :
  (∀ x w w' r, x ∈ xs → body x w = (w', r) → I w → I w') →
  ∀ w w' r, for_each xs body w = (w', r) → I w → I w'.
Proof.
  induction xs as [|x xs IH]; intros Hbody w w' r; simpl.
  - by intros [= <- <-].
  - unfold bind. destruct (body x w) as [w1 [[]|e]] eqn:Hx.
    + intros Hrest Hw. apply (IH) with (w := w1) (r := r); [|done|].
      * intros y v v' q Hy. apply Hbody. by right.
      * apply (Hbody x w w1 (Ok ())); [by left|done..].
    + intros [= <- <-] Hw. apply (Hbody x w w1 (Raise e)); [by left|done..].
Qed.

(** The loop stops at the first iteration that raises. *)
Lemma for_each_app_raise {A} (pre post : list A) (x : A) (body : A → M unit)
    w w1 w2 e :
  for_each pre body w = (w1, Ok tt) → body x w1 = (w2, Raise e) →
  for_each (pre ++ x :: post) body w = (w2, Raise e).
Proof.
  revert w. induction pre as [|y pre IH]; intros w; simpl.
  - intros [= <-] Hx. unfold bind. by rewrite Hx.
  - unfold bind. destruct (body y w) as [w0 [[]|e0]]; [|done].
    apply IH.
Qed.

Lemma os_makedirs_frame name w w' r :
  os_makedirs name w = (w', r) →
  heap w' = heap w ∧ cwd w' = cwd w
  ∧ trace w' = (trace w ++ [EvMakedirs name])%list.
Proof.
  unfold os_makedirs, fs_call. simpl.
  destruct (FS.makedirs _ _ _) as [m [e|]]; by intros [= <- <-].
Qed.

Lemma write_bam_file_spec n path w :
  ∃ w' b, write_bam_file n path w = (w', Ok b)
          ∧ heap w' = heap w ∧ cwd w' = cwd w
          ∧ trace w' = (trace w ++ [EvWriteBam path n])%list.
Proof.
  unfold write_bam_file. cbv zeta.
  repeat case_match; by eexists _, _.
Qed.

Lemma relocate_texture_frame args p t w w' r :
  relocate_texture args p t w = (w', r) →
  cwd w' = cwd w
  ∧ bam_writes (trace w') = bam_writes (trace w)
  ∧ ∀ t', t ≠ t' → heap w' !! t' = heap w !! t'.
Proof.
  intros Hrun. pose proof (relocate_texture_heap _ _ _ _ _ _ Hrun) as Hh.
  rewrite relocate_texture_eq in Hrun.
  destruct (retarget_trace p t w) as (l1 & l2 & Hl).
  assert (Hheap : ∀ t', t ≠ t' → heap w' !! t' = heap w !! t').
  { intros t' Hne. by rewrite Hh, rewritten_heap_lookup_ne. }
  case_bool_decide.
  - destruct (copy_step_frame _ _ _ _ _ _ Hrun) as (_ & -> & Htr).
    split; [done|]. split; [|done].
    destruct Htr as [-> | ->]; rewrite Hl, !bam_writes_app; simpl;
      by rewrite !app_nil_r.
  - injection Hrun as <- <-. split; [done|]. split; [|done].
    rewrite Hl, bam_writes_app. simpl. by rewrite app_nil_r.
Qed.

(** The relocation calls [write_bam_file] for nothing and leaves the
    textures without a filename alone. *)
Lemma relocate_textures_frame args p conv w w' r :
  relocate_textures args p conv w = (w', r) →
  bam_writes (trace w') = bam_writes (trace w)
  ∧ ∀ t, declared w t = "" → heap w' !! t = heap w !! t.
Proof.
  unfold relocate_textures, bind, collect_textures.
  set (ts := filter _ _). intros Hloop.
  apply (for_each_invariant
           (λ w1, bam_writes (trace w1) = bam_writes (trace w)
                  ∧ ∀ t, t ∉ ts → heap w1 !! t = heap w !! t)) in Hloop.
  - destruct Hloop as [Htr Hh]. split; [done|]. intros t Ht. apply Hh.
    unfold ts. rewrite list_elem_of_filter. fold (declared w t). tauto.
  - intros x w1 w2 r2 Hx Hstep [Htr Hh].
    destruct (relocate_texture_frame _ _ _ _ _ _ Hstep) as (_ & Htr2 & Hh2).
    split; [congruence|]. intros t Ht. rewrite Hh2; [by apply Hh|].
    by intros ->.
  - done.
Qed.

(** The animation loop calls [write_bam_file] once per bundle node, in the
    order of the list, and raises nothing. *)
Lemma write_animations_spec p ns w :
  ∃ w', for_each ns (write_animation p) w = (w', Ok tt)
        ∧ heap w' = heap w
        ∧ trace w'
          = (trace w ++ map (λ n, EvWriteBam (anim_dst p (bundle_name_of n)) n)
                            ns)%list.
Proof.
  revert w. induction ns as [|n ns IH]; intros w; simpl.
  - exists w. by rewrite app_nil_r.
  - unfold bind at 1. unfold write_animation at 1. unfold bind at 1.
    destruct (write_bam_file_spec n (anim_dst p (bundle_name_of n)) w)
      as (w1 & b & -> & Hh & _ & Htr). simpl.
    destruct (IH w1) as (w' & -> & Hh' & Htr'). exists w'.
    split; [done|]. split; [congruence|].
    by rewrite Htr', Htr, <- app_assoc.
Qed.

Lemma write_artifacts_spec args p conv w :
  ∃ w', write_artifacts args p conv w = (w', Ok tt)
        ∧ heap w' = heap w
        ∧ bam_writes (trace w')
          = (bam_writes (trace w) ++ artifacts args p conv)%list.
Proof.
  unfold write_artifacts, artifacts.
  assert (Hanim : ∃ w1,
    (if bool_decide (arg_animations args = separate)
     then for_each (find_all_matches_AnimBundleNode (active_scene conv))
                   (write_animation p)
     else ret tt) w = (w1, Ok tt)
    ∧ heap w1 = heap w
    ∧ bam_writes (trace w1)
      = (bam_writes (trace w)
         ++ (if bool_decide (arg_animations args = separate)
             then map (λ n, (anim_dst p (bundle_name_of n), n))
                      (find_all_matches_AnimBundleNode (active_scene conv))
             else []))%list).
  { case_bool_decide.
    - destruct (write_animations_spec p
                  (find_all_matches_AnimBundleNode (active_scene conv)) w)
        as (w1 & Hrun & Hh & Htr).
      exists w1. split; [done|]. split; [done|].
      rewrite Htr, bam_writes_app. f_equal.
      generalize (find_all_matches_AnimBundleNode (active_scene conv)).
      intros l. unfold bam_writes.
      induction l as [|n l IHl]; [done|]. simpl. by f_equal.
    - exists w. by rewrite app_nil_r. }
  destruct Hanim as (w1 & Hrun & Hh & Htr).
  unfold bind at 1. rewrite Hrun.
  unfold bind at 1. unfold print at 1.
  unfold bind at 1.
  destruct (write_bam_file_spec (active_scene conv) (dst p)
              (log (EvPrint ("Writing bam file to " +:+ dst p)) w1))
    as (w2 & b & -> & Hh2 & _ & Htr2).
  exists w2. split; [done|]. split; [by rewrite Hh2|].
  rewrite Htr2. simpl. rewrite !bam_writes_app, Htr. simpl.
  by rewrite app_nil_r, <- app_assoc.
Qed.

(** A job either raises before any BAM file is written, or reaches its end
    having written the animation bundles (when asked to) and then the
    scene. *)
Lemma emit_outcome args p conv w w' r :
  emit args p conv w = (w', r) →
  ((∃ e, r = Raise e ∧ bam_writes (trace w') = bam_writes (trace w))
   ∨ (r = Ok tt
      ∧ bam_writes (trace w')
        = (bam_writes (trace w) ++ artifacts args p conv)%list))
  ∧ ∀ t, declared w t = "" → heap w' !! t = heap w !! t.
Proof.
  unfold emit. unfold bind at 1.
  destruct (os_makedirs _ w) as [w1 [[]|e]] eqn:Hmk;
    destruct (os_makedirs_frame _ _ _ _ Hmk) as (Hh1 & _ & Htr1).
  2:{ intros [= <- <-]. split; [|by intros; rewrite Hh1].
      left. exists e. split; [done|].
      rewrite Htr1, bam_writes_app. simpl. by rewrite app_nil_r. }
  assert (Hb1 : bam_writes (trace w1) = bam_writes (trace w)).
  { rewrite Htr1, bam_writes_app. simpl. by rewrite app_nil_r. }
  unfold bind at 1.
  assert (Hls : ∃ w2,
    (if arg_print_scene args then ls (active_scene conv) else ret tt) w1
    = (w2, Ok tt) ∧ heap w2 = heap w1
    ∧ bam_writes (trace w2) = bam_writes (trace w1)).
  { destruct (arg_print_scene args); eexists; (split; [done|]); split;
      try done. unfold log. simpl. rewrite bam_writes_app. simpl.
    by rewrite app_nil_r. }
  destruct Hls as (w2 & -> & Hh2 & Hb2).
  assert (Hdecl : ∀ t, declared w2 t = declared w t).
  { intros t. unfold declared. by rewrite Hh2, Hh1. }
  unfold bind at 1.
  destruct (relocate_textures args p conv w2) as [w3 [[]|e]] eqn:Hrel;
    destruct (relocate_textures_frame _ _ _ _ _ _ Hrel) as [Hb3 Hh3].
  2:{ intros [= <- <-]. split.
      - left. exists e. split; [done|]. congruence.
      - intros t Ht. rewrite Hh3 by by rewrite Hdecl. by rewrite Hh2, Hh1. }
  destruct (write_artifacts_spec args p conv w3) as (w4 & -> & Hh4 & Hb4).
  intros [= <- <-]. split.
  - right. split; [done|]. rewrite Hb4. congruence.
  - intros t Ht. rewrite Hh4, Hh3 by by rewrite Hdecl. by rewrite Hh2, Hh1.
Qed.

Lemma main_emit run_converter args w w0 conv :
  run_converter (src (resolve_paths (cwd w) args)) (settings_of args)
                (assets_dir (resolve_paths (cwd w) args)) w = (w0, Ok conv) →
  main run_converter args w = emit args (resolve_paths (cwd w) args) conv w0.
Proof. intros H. unfold main, bind, os_getcwd. by rewrite H. Qed.

(** ** Animation bundles in files of their own (lines 173-179) *)

Lemma filter_concat_perm (l : list (list PandaNode)) :
  bundles (concat l) = concat (map (λ x, bundles x) l).
Proof.
  induction l as [|x l IH]; [done|]. simpl. by rewrite filter_app, IH.
Qed.

Lemma matched_fold next cs :
  solutions (foldl (λ next c, if is_anim_bundle c then Solution c :: next
                              else next) next cs)
  = (rev (bundles cs) ++ solutions next)%list
  ∧ searched (foldl (λ next c, if is_anim_bundle c then Solution c :: next
                               else next) next cs)
    = searched next.
Proof.
  revert next. induction cs as [|c cs IH]; intros next; [done|]. simpl.
  destruct (IH (if is_anim_bundle c then Solution c :: next else next))
    as [-> ->].
  destruct (is_anim_bundle c) eqn:Hc.
  - rewrite filter_cons_True by done. simpl. by rewrite <- app_assoc.
  - rewrite filter_cons_False; [done|]. by rewrite Hc.
Qed.

Lemma search_fold next cs :
  solutions (foldl (λ next c, Search c :: next) next cs) = solutions next
  ∧ searched (foldl (λ next c, Search c :: next) next cs)
    = (rev cs ++ searched next)%list.
Proof.
  revert next. induction cs as [|c cs IH]; intros next; [done|]. simpl.
  destruct (IH (Search c :: next)) as [-> ->]. simpl.
  by rewrite <- app_assoc.
Qed.

Lemma consider_level level result next :
  ∃ next',
    foldl (λ acc e, consider_node e acc) (result, next) level
    = ((result ++ solutions level)%list, next')
    ∧ solutions next'
      ≡ₚ (bundles (concat (map children_of (searched level)))
          ++ solutions next)%list
    ∧ searched next'
      ≡ₚ (concat (map children_of (searched level)) ++ searched next)%list.
Proof.
  revert result next. induction level as [|e level IH]; intros result next.
  - exists next. simpl. by rewrite app_nil_r.
  - simpl. destruct e as [n|n]; simpl.
    + destruct (matched_fold next (children_of n)) as [Hs1 Hq1].
      destruct (search_fold
                  (foldl (λ next c, if is_anim_bundle c then Solution c :: next
                                    else next) next (children_of n))
                  (children_of n)) as [Hs2 Hq2].
      destruct (IH result
                  (foldl (λ next c, Search c :: next)
                     (foldl (λ next c, if is_anim_bundle c
                                       then Solution c :: next else next)
                        next (children_of n)) (children_of n)))
        as (next' & -> & Hs & Hq).
      exists next'. split; [done|]. split.
      * rewrite Hs, Hs2, Hs1, filter_app, <- Permutation_rev.
        rewrite <- !app_assoc. apply Permutation_app_swap_app.
      * rewrite Hq, Hq2, Hq1, <- Permutation_rev.
        rewrite <- !app_assoc. apply Permutation_app_swap_app.
    + destruct (IH (result ++ [n])%list next) as (next' & -> & Hs & Hq).
      exists next'. by rewrite <- app_assoc.
Qed.

Lemma within_S j (l : list PandaNode) :
  concat (map (within (S j)) l)
  ≡ₚ (concat (map children_of l)
      ++ concat (map (within j) (concat (map children_of l))))%list.
Proof.
  assert (Hone : ∀ cs : list PandaNode,
            concat (map (λ c, c :: within j c) cs)
            ≡ₚ (cs ++ concat (map (within j) cs))%list).
  { induction cs as [|c cs IH]; [done|]. simpl. rewrite IH.
    apply Permutation_skip. rewrite !app_assoc.
    apply Permutation_app_tail, Permutation_app_comm. }
  induction l as [|n l IH]; [done|]. simpl.
  rewrite IH, Hone, map_app, concat_app.
  rewrite <- !app_assoc. apply Permutation_app_head.
  rewrite !app_assoc. apply Permutation_app_tail, Permutation_app_comm.
Qed.

Lemma within_perm j (l l' : list PandaNode) :
  l ≡ₚ l' → concat (map (within j) l) ≡ₚ concat (map (within j) l').
Proof.
  induction 1 as [|x l l' _ IH|x y l|l1 l2 l3 _ IH1 _ IH2]; simpl.
  - done.
  - by rewrite IH.
  - rewrite !app_assoc. apply Permutation_app_tail, Permutation_app_comm.
  - by rewrite IH1.
Qed.

Lemma bundles_perm (l l' : list PandaNode) :
  l ≡ₚ l' → bundles l ≡ₚ bundles l'.
Proof. intros H. by rewrite H. Qed.

Lemma find_matches_perm f level result :
  find_matches (S f) level result
  ≡ₚ (result ++ solutions level
      ++ bundles (concat (map (within f) (searched level))))%list.
Proof.
  revert level result. induction f as [|f IH]; intros level result.
  - simpl. destruct level as [|e level]; [by rewrite app_nil_r|].
    destruct (consider_level (e :: level) result []) as (next' & -> & _).
    assert (Hnil : ∀ l : list PandaNode,
              concat (map (λ _ : PandaNode, @nil PandaNode) l) = [])
      by (induction l as [|x l IHl]; done).
    by rewrite Hnil, filter_nil, !app_nil_r.
  - change (find_matches (S (S f)) level result)
      with (match level with
            | [] => result
            | _ => let '(result', next_level) :=
                     foldl (λ acc e, consider_node e acc) (result, []) level in
                   find_matches (S f) next_level result'
            end).
    destruct level as [|e level]; [by rewrite app_nil_r|].
    destruct (consider_level (e :: level) result []) as (next' & -> & Hs & Hq).
    rewrite IH, Hs, app_nil_r.
    rewrite (bundles_perm _ _ (within_perm f _ _ Hq)), app_nil_r.
    rewrite (bundles_perm _ _ (within_S f (searched (e :: level)))).
    rewrite filter_app, <- !app_assoc. done.
Qed.

Lemma depth_child c cs :
  c ∈ cs → (depth c ≤ foldr Nat.max 0 (map depth cs))%nat.
Proof.
  induction 1 as [c cs|c c' cs Hc IH]; simpl; lia.
Qed.

(** Deep enough, the levels below a node hold its whole subtree. *)
Lemma within_subtree j n :
  (depth n ≤ S j)%nat → within j n = concat (map subtree (children_of n)).
Proof.
  revert n. induction j as [|j IH]; intros [nm k ts cs] Hd; simpl in *.
  - destruct cs as [|c cs]; [done|]. destruct c. simpl in Hd. lia.
  - f_equal. apply map_ext_in. intros c Hc%list_elem_of_In.
    pose proof (depth_child c cs Hc).
    rewrite (IH c) by lia. by destruct c.
Qed.

(** The search lists every animation bundle node below the root once,
    when the scene is not deeper than the search goes. *)
Lemma find_all_matches_bundles scene :
  (depth scene ≤ max_search_depth)%nat →
  find_all_matches_AnimBundleNode scene
  ≡ₚ filter (λ n, is_anim_bundle n = true)
       (concat (map subtree (children_of scene))).
Proof.
  intros Hd. unfold find_all_matches_AnimBundleNode.
  assert (∃ j, max_search_depth = S j) as [j Hj] by by exists 6999.
  rewrite Hj in *. rewrite find_matches_perm. simpl. rewrite !app_nil_r.
  by rewrite within_subtree.
Qed.

Lemma anim_dst_eq p anim_name :
  anim_dst p anim_name
  = Fn.get_fullpath_wo_extension (dst p) +:+ "_" +:+ anim_name +:+ "."
      +:+ Fn.get_extension (dst p).
Proof. unfold anim_dst. by rewrite !app_assoc_str. Qed.

(** A scene whose graph has the bundle [idle] before the bundle [walk]:
    the three files of the claim are written, [walk] first, since
    [find_all_matches] lists the children of a node from the last one.
    With the two bundles the other way round in the graph, [idle] is
    written first: the order comes from the graph, not from the names. *)
Lemma C5_counterexample :
  snd (main (converted scene_idle_walk)
         (job_args "/out/model.bam" None separate) world_no_texture) = Ok tt
  ∧ map fst (bam_writes (trace (fst (main (converted scene_idle_walk)
                 (job_args "/out/model.bam" None separate) world_no_texture))))
    = ["/out/model_walk.bam"; "/out/model_idle.bam"; "/out/model.bam"]
  ∧ bundle_write_order (trace (fst (main (converted scene_idle_walk)
        (job_args "/out/model.bam" None separate) world_no_texture)))
    = ["walk"; "idle"]
  ∧ bundle_write_order (trace (fst (main (converted scene_walk_idle)
        (job_args "/out/model.bam" None separate) world_no_texture)))
    = ["idle"; "walk"]
  ∧ ¬ bundles_written_by_name (converted scene_idle_walk)
        (job_args "/out/model.bam" None separate) world_no_texture.
Proof.
  split; [by vm_compute|]. split; [by vm_compute|]. split; [by vm_compute|].
  split; [by vm_compute|].
  unfold bundles_written_by_name. by vm_compute.
Qed.

(** C5, amended.  In mode [separate] a job that reaches its end calls
    [write_bam_file] once for each node [find_all_matches] lists, with the
    path made of the destination without its extension, [_], the bundle
    name, [.] and the extension of the destination, in the order of that
    list (nearest levels first, the children of a node from the last one;
    nothing sorts by name), and then once for the scene at the destination.
    In the other modes only the scene is written.  When the scene is not
    deeper than the search goes, the list holds every animation bundle node
    below the root of the scene once. *)
Theorem C5_one_file_per_bundle_in_match_order args p conv w w' :
  emit args p conv w = (w', Ok tt) →
  (arg_animations args = separate →
     bam_writes (trace w')
     = (bam_writes (trace w)
        ++ map (λ n, (Fn.get_fullpath_wo_extension (dst p) +:+ "_"
                        +:+ bundle_name_of n +:+ "."
                        +:+ Fn.get_extension (dst p), n))
               (find_all_matches_AnimBundleNode (active_scene conv))
        ++ [(dst p, active_scene conv)])%list)
  ∧ (arg_animations args ≠ separate →
       bam_writes (trace w')
       = (bam_writes (trace w) ++ [(dst p, active_scene conv)])%list)
  ∧ ((depth (active_scene conv) ≤ max_search_depth)%nat →
       find_all_matches_AnimBundleNode (active_scene conv)
       ≡ₚ filter (λ n, is_anim_bundle n = true)
            (concat (map subtree (children_of (active_scene conv))))).
Proof.
  intros Hrun. destruct (emit_outcome _ _ _ _ _ _ Hrun) as [[Hr|[_ Hw]] _].
  { by destruct Hr as (e & ? & _). }
  unfold artifacts in Hw. split; [|split].
  - intros Hmode. rewrite bool_decide_eq_true_2 in Hw by done. rewrite Hw.
    f_equal. f_equal. apply map_ext. intros n. by rewrite anim_dst_eq.
  - intros Hmode. by rewrite bool_decide_eq_false_2 in Hw.
  - apply find_all_matches_bundles.
Qed.

Lemma C5_one_file_per_bundle_in_match_order_witness :
  bam_writes (trace (fst (main (converted scene_idle_walk)
     (job_args "/out/model.bam" None separate) world_no_texture)))
  = [ ("/out/model_walk.bam", mkNode "walk" (AnimBundleNode "walk") [] []);
      ("/out/model_idle.bam", mkNode "idle" (AnimBundleNode "idle") [] []);
      ("/out/model.bam", scene_idle_walk) ].
Proof.
  assert (Hrun : emit (job_args "/out/model.bam" None separate)
                   paths_in_to_out
                   (mkConverter [scene_idle_walk] scene_idle_walk)
                   world_no_texture
                 = (fst (main (converted scene_idle_walk)
                           (job_args "/out/model.bam" None separate)
                           world_no_texture), Ok tt))
    by (vm_compute; reflexivity).
  pose proof (proj1 (C5_one_file_per_bundle_in_match_order _ _ _ _ _ Hrun)
                eq_refl) as Hw.
  vm_compute in Hw. vm_compute. exact Hw.
Defined.

(** ** Which filenames the relocation rewrites, and to what *)

(** The texture [/x/t.png], with the assets directory [/in]: the step
    stores the filename back as it was, absolute, and so does the whole
    job. *)
Lemma C3_counterexample :
  declared world_foreign_texture 0 = "/x/t.png"
  ∧ assets_dir paths_in_to_out = "/in"
  ∧ declared (fst (relocate_texture (job_args "/out/model.bam" None embed)
                     paths_in_to_out 0 world_foreign_texture)) 0 = "/x/t.png"
  ∧ ¬ rewritten_relative (job_args "/out/model.bam" None embed)
        paths_in_to_out world_foreign_texture 0.
Proof.
  split; [reflexivity|]. split; [reflexivity|]. split; [by vm_compute|].
  unfold rewritten_relative. by vm_compute.
Qed.

(** C3, amended.  The textures relocated are those of the scenes that have
    a non-empty filename.  Each one gets the filename [makeRelativeTo]
    leaves: a filename that is not absolute is stored back as it is; an
    absolute one for which [makeRelativeTo] succeeds becomes relative; an
    absolute one for which it fails (nothing but the root in common with
    the assets directory, or the assets directory is the root) stays
    absolute.  A texture with an empty filename is not in the list, and the
    job leaves it as it is. *)
Theorem C3_filename_rewritten_by_make_relative_to args p :
  (∀ conv w t,
     t ∈ (filter (λ t, declared w t ≠ "")
            (concat (map find_all_textures (scenes conv))))
     ↔ (∃ scene, scene ∈ scenes conv ∧ t ∈ find_all_textures scene)
       ∧ declared w t ≠ "")
  ∧ (∀ conv w, collect_textures conv w
       = (w, Ok (filter (λ t, declared w t ≠ "")
                   (concat (map find_all_textures (scenes conv))))))
  ∧ (∀ t w w' r, relocate_texture args p t w = (w', r) →
       declared w' t = fst (Fn.make_relative_to (assets_dir p) (declared w t)))
  ∧ (∀ f, Fn.is_local f = true →
       Fn.make_relative_to (assets_dir p) f = (f, false))
  ∧ (∀ f, snd (Fn.make_relative_to (assets_dir p) f) = true →
       Fn.is_local f = false
       ∧ Fn.is_local (fst (Fn.make_relative_to (assets_dir p) f)) = true)
  ∧ (∀ f, Fn.is_local f = false →
       snd (Fn.make_relative_to (assets_dir p) f) = false →
       Fn.is_local (fst (Fn.make_relative_to (assets_dir p) f)) = false)
  ∧ (∀ conv w w' r t, emit args p conv w = (w', r) →
       declared w t = "" → heap w' !! t = heap w !! t).
Proof.
  split; [|split; [|split; [|split; [|split; [|split]]]]].
  - intros conv w t. rewrite list_elem_of_filter, list_elem_of_In, in_concat.
    split.
    + intros [Hne (l & (scene & <- & Hs)%in_map_iff & Ht)].
      split; [|done]. exists scene. by rewrite !list_elem_of_In.
    + intros [(scene & Hs & Ht) Hne]. split; [done|].
      exists (find_all_textures scene).
      split; [apply in_map|]; by apply list_elem_of_In.
  - done.
  - intros t w w' r Hrun.
    by rewrite (relocate_texture_declared _ _ _ _ _ _ Hrun).
  - intros f. apply make_relative_to_local.
  - intros f. apply make_relative_to_true.
  - intros f Hl Hs. by rewrite make_relative_to_false.
  - intros conv w w' r t Hrun. by apply (emit_outcome _ _ _ _ _ _ Hrun).
Qed.

Lemma C3_filename_rewritten_by_make_relative_to_witness :
  declared world_abs_relocated 0 = "tex/a.png"
  ∧ Fn.make_relative_to "/in" "tex/a.png" = ("tex/a.png", false)
  ∧ Fn.is_local (fst (Fn.make_relative_to "/in" "/in/tex/a.png")) = true
  ∧ Fn.is_local (fst (Fn.make_relative_to "/in" "/x/t.png")) = false
  ∧ heap (fst (emit (job_args "/out/model.bam" None embed) paths_in_to_out
                 (mkConverter [scene_two_geoms] scene_two_geoms)
                 world_mixed_textures)) !! 1
    = Some (mkTexture "" "").
Proof.
  pose proof (C3_filename_rewritten_by_make_relative_to
                (job_args "/out/model.bam" None embed) paths_in_to_out)
    as (_ & _ & Hstep & Hlocal & Htrue & Hfalse & Hempty).
  split.
  { apply (Hstep 0 world_abs_texture world_abs_relocated
             (snd (relocate_texture (job_args "/out/model.bam" None embed)
                     paths_in_to_out 0 world_abs_texture))).
    by vm_compute. }
  split; [apply (Hlocal "tex/a.png"); reflexivity|].
  split; [apply (Htrue "/in/tex/a.png"); reflexivity|].
  split; [apply (Hfalse "/x/t.png"); reflexivity|].
  exact (Hempty (mkConverter [scene_two_geoms] scene_two_geoms)
           world_mixed_textures _ _ 1 (surjective_pairing _) eq_refl).
Defined.

(** ** A texture file that is not there *)

(** When the step copies and the source is not there once the parent of
    the destination is made, [shutil.copy] raises [FileNotFoundError] for
    the source path; the filename is rewritten and the directory made all
    the same. *)
Lemma relocate_texture_missing args p t w :
  texsrc_of p (declared w t) ≠ texdst_of p (declared w t) →
  snd (FS.makedirs (cwd w) (posixpath.dirname (texdst_of p (declared w t)))
         (fs w)) = None →
  FS.is_dir (fst (FS.makedirs (cwd w)
                    (posixpath.dirname (texdst_of p (declared w t))) (fs w)))
    (FS.resolve (cwd w) (texsrc_of p (declared w t))) = false →
  fst (FS.makedirs (cwd w) (posixpath.dirname (texdst_of p (declared w t)))
         (fs w))
    !! FS.resolve (cwd w) (texsrc_of p (declared w t)) = None →
  ∃ w', relocate_texture args p t w
        = (w', Raise (FileNotFoundError (texsrc_of p (declared w t))))
        ∧ fs w' = fst (FS.makedirs (cwd w)
                         (posixpath.dirname (texdst_of p (declared w t)))
                         (fs w))
        ∧ heap w' = rewritten_heap p t w.
Proof.
  intros Hne Hmk Hnd Hnone. rewrite relocate_texture_eq.
  rewrite bool_decide_eq_true_2 by done.
  unfold bind, os_makedirs, shutil_copy, fs_call. simpl.
  destruct (FS.makedirs _ _ _) as [m1 o]. simpl in *. subst o. simpl.
  rewrite copy_missing by done. by eexists.
Qed.

(** A step that raises removes no file. *)
Lemma relocate_texture_raise_keeps args p t w w' e k c :
  relocate_texture args p t w = (w', Raise e) →
  fs w !! k = Some (File c) → fs w' !! k = Some (File c).
Proof.
  intros [_ Hrun]%relocate_texture_raise Hk. revert Hrun.
  unfold bind, os_makedirs, shutil_copy, fs_call. simpl.
  destruct (FS.makedirs _ _ _) as [m1 o] eqn:Hmk.
  assert (Hm1 : m1 !! k = Some (File c)).
  { destruct (makedirs_keeps _ _ _ _ _ k Hmk) as [->|[Hn _]]; [done|].
    by rewrite Hn in Hk. }
  destruct o as [e1|]; simpl.
  - by intros [= <- <-].
  - destruct (FS.copy _ _ _ m1) as [m2 [e2|]] eqn:Hcp; [|done].
    intros [= <- <-]. simpl. by rewrite (copy_fs_on_error _ _ _ _ _ _ Hcp).
Qed.

(** Two ways the claim fails.  Converting from [/in] to [/out], with
    [tex/a.png] in the first scene and [tex/b.png] in the second, the job
    raises at [tex/b.png] after [tex/a.png] has been copied to the output
    directory.  Converting in place, source and destination path are the
    same, nothing looks at the file and the job writes the scene. *)
Lemma C1_counterexample :
  (snd (main (converted_two scene_walls scene_roofs) (job_args "/out/model.bam" None embed)
          world_b_missing) = Raise (FileNotFoundError "/in/tex/b.png")
   ∧ fs world_b_missing !! ["out"; "tex"; "a.png"] = None
   ∧ fs (fst (main (converted_two scene_walls scene_roofs)
                (job_args "/out/model.bam" None embed) world_b_missing))
       !! ["out"; "tex"; "a.png"] = Some (File (Bytes "PNG-a"))
   ∧ ¬ missing_asset_leaves_no_file (converted_two scene_walls scene_roofs)
         (job_args "/out/model.bam" None embed) world_b_missing 1)
  ∧ (snd (main (converted_two scene_walls scene_roofs) (job_args "" None embed)
            world_b_missing) = Ok tt
     ∧ map fst (bam_writes (trace (fst (main (converted_two scene_walls scene_roofs)
                  (job_args "" None embed) world_b_missing))))
       = ["/in/model.bam"]
     ∧ ¬ missing_asset_leaves_no_file (converted_two scene_walls scene_roofs)
           (job_args "" None embed) world_b_missing 1).
Proof.
  split.
  - split; [by vm_compute|]. split; [by vm_compute|]. split; [by vm_compute|].
    intros Hclaim. destruct Hclaim as [_ Hfiles]; [by vm_compute|].
    specialize (Hfiles ["out"; "tex"; "a.png"] (Bytes "PNG-a")).
    assert (Hno : fs world_b_missing !! ["out"; "tex"; "a.png"]
                  ≠ Some (File (Bytes "PNG-a"))) by by vm_compute.
    apply Hno, Hfiles.
    + exists ["tex"; "a.png"]. by vm_compute.
    + by vm_compute.
  - split; [by vm_compute|]. split; [by vm_compute|].
    intros Hclaim. destruct Hclaim as [[e He] _]; [by vm_compute|].
    by vm_compute in He.
Qed.

(** C1, amended.  A texture whose file is not there stops the job only
    when the step copies, that is when its source and destination paths
    differ: [shutil.copy] then raises [FileNotFoundError] for the resolved
    source path.  The loop ends at that texture; the files there were
    before that step, the textures copied by earlier iterations among them,
    stay, and the parent directory of the destination has been made.  A job
    that raises has called [write_bam_file] for nothing: neither the scene
    nor an animation bundle is written.  When the two paths are the same
    the step does not look at the file and ends normally. *)
Theorem C1_missing_asset_stops_the_job args p :
  (∀ t w,
     texsrc_of p (declared w t) ≠ texdst_of p (declared w t) →
     snd (FS.makedirs (cwd w) (posixpath.dirname (texdst_of p (declared w t)))
            (fs w)) = None →
     FS.is_dir (fst (FS.makedirs (cwd w)
                       (posixpath.dirname (texdst_of p (declared w t)))
                       (fs w)))
       (FS.resolve (cwd w) (texsrc_of p (declared w t))) = false →
     fst (FS.makedirs (cwd w) (posixpath.dirname (texdst_of p (declared w t)))
            (fs w))
       !! FS.resolve (cwd w) (texsrc_of p (declared w t)) = None →
     snd (relocate_texture args p t w)
     = Raise (FileNotFoundError (texsrc_of p (declared w t))))
  ∧ (∀ pre t post w w1 w2 e,
       for_each pre (relocate_texture args p) w = (w1, Ok tt) →
       relocate_texture args p t w1 = (w2, Raise e) →
       for_each (pre ++ t :: post) (relocate_texture args p) w = (w2, Raise e)
       ∧ ∀ k c, fs w1 !! k = Some (File c) → fs w2 !! k = Some (File c))
  ∧ (∀ conv w w' e,
       emit args p conv w = (w', Raise e) →
       bam_writes (trace w') = bam_writes (trace w))
  ∧ (∀ t w,
       texsrc_of p (declared w t) = texdst_of p (declared w t) →
       relocate_texture args p t w = (retarget p t w, Ok tt)).
Proof.
  split; [|split; [|split]].
  - intros t w Hne Hmk Hnd Hnone.
    destruct (relocate_texture_missing args p t w Hne Hmk Hnd Hnone)
      as (w' & -> & _). done.
  - intros pre t post w w1 w2 e Hpre Hstep. split.
    + by apply (for_each_app_raise pre post t _ w w1 w2 e).
    + intros k c. by apply (relocate_texture_raise_keeps _ _ _ _ _ _ _ _ Hstep).
  - intros conv w w' e Hrun.
    destruct (emit_outcome _ _ _ _ _ _ Hrun) as [[(e' & _ & Hb)|[? _]] _];
      done.
  - intros t w Heq. rewrite relocate_texture_eq.
    rewrite bool_decide_eq_false_2; [done|]. by intros Hne.
Qed.

Lemma C1_missing_asset_stops_the_job_witness :
  snd (relocate_texture (job_args "/out/model.bam" None embed)
         paths_in_to_out 1 world_a_copied)
  = Raise (FileNotFoundError "/in/tex/b.png")
  ∧ snd (for_each [0; 1] (relocate_texture (job_args "/out/model.bam" None embed)
                            paths_in_to_out) world_b_missing)
    = Raise (FileNotFoundError "/in/tex/b.png")
  ∧ bam_writes (trace (fst (emit (job_args "/out/model.bam" None embed)
                              paths_in_to_out
                              (mkConverter [scene_two_meshes] scene_two_meshes)
                              world_b_missing))) = []
  ∧ snd (relocate_texture (job_args "" None embed) paths_in_place 1
           world_b_missing) = Ok tt.
Proof.
  pose proof (C1_missing_asset_stops_the_job
                (job_args "/out/model.bam" None embed) paths_in_to_out)
    as (Hstep & Hloop & Hjob & _).
  pose proof (C1_missing_asset_stops_the_job
                (job_args "" None embed) paths_in_place)
    as (_ & _ & _ & Hsame).
  split.
  { apply (Hstep 1 world_a_copied); by vm_compute. }
  split.
  { assert (Hpre : for_each [0] (relocate_texture
                     (job_args "/out/model.bam" None embed) paths_in_to_out)
                     world_b_missing = (world_a_copied, Ok tt))
      by (vm_compute; reflexivity).
    assert (Hone : relocate_texture (job_args "/out/model.bam" None embed)
                     paths_in_to_out 1 world_a_copied
                   = (fst (relocate_texture
                             (job_args "/out/model.bam" None embed)
                             paths_in_to_out 1 world_a_copied),
                      Raise (FileNotFoundError "/in/tex/b.png")))
      by (vm_compute; reflexivity).
    exact (f_equal snd (proj1 (Hloop [0] 1 [] _ _ _ _ Hpre Hone))). }
  split.
  { assert (Hrun : emit (job_args "/out/model.bam" None embed) paths_in_to_out
                     (mkConverter [scene_two_meshes] scene_two_meshes)
                     world_b_missing
                   = (fst (emit (job_args "/out/model.bam" None embed)
                             paths_in_to_out
                             (mkConverter [scene_two_meshes] scene_two_meshes)
                             world_b_missing),
                      Raise (FileNotFoundError "/in/tex/b.png")))
      by (vm_compute; reflexivity).
    by rewrite (Hjob _ _ _ _ Hrun). }
  by rewrite (Hsame 1 world_b_missing) by by vm_compute.
Defined.

(** * Further properties of the job *)

(** ** The stages of a job *)

Lemma fs_call_run e op w :
  fs_call e op w
  = (set_fs (fst (op (cwd w) (fs w))) (log e w),
     match snd (op (cwd w) (fs w)) with
     | None => Ok tt
     | Some err => Raise err
     end).
Proof.
  unfold fs_call. simpl. by destruct (op (cwd w) (fs w)) as [m [err|]].
Qed.

Lemma relocate_textures_invariant (I : world → Prop) args p conv :
  (∀ t w w' r, relocate_texture args p t w = (w', r) → I w → I w') →
  ∀ w w' r, relocate_textures args p conv w = (w', r) → I w → I w'.
Proof.
  intros Hstep w w' r. unfold relocate_textures, bind, collect_textures.
  apply for_each_invariant. intros t v v' q _. apply Hstep.
Qed.

Lemma write_artifacts_invariant (I : world → Prop) args p conv :
  (∀ line w, I w → I (log (EvPrint line) w)) →
  (∀ n path w w' b, write_bam_file n path w = (w', Ok b) → I w → I w') →
  ∀ w w' r, write_artifacts args p conv w = (w', r) → I w → I w'.
Proof.
  intros Hprint Hwrite w w' r. unfold write_artifacts. unfold bind at 1.
  assert (Hanim : ∀ v v' q,
    (if bool_decide (arg_animations args = separate)
     then for_each (find_all_matches_AnimBundleNode (active_scene conv))
                   (write_animation p)
     else ret tt) v = (v', q) → I v → I v').
  { intros v v' q. case_bool_decide; [|by intros [= <- <-]].
    apply for_each_invariant. intros n u u' q' _.
    unfold write_animation, bind.
    destruct (write_bam_file_spec n (anim_dst p (bundle_name_of n)) u)
      as (u1 & b & Hrun & _). rewrite Hrun. intros [= <- <-].
    by apply (Hwrite _ _ _ _ _ Hrun). }
  destruct (_ w) as [w1 [[]|e]] eqn:Hrun1.
  2:{ intros [= <- <-]. by apply (Hanim _ _ _ Hrun1). }
  unfold bind at 1. unfold print at 1. unfold bind at 1.
  destruct (write_bam_file_spec (active_scene conv) (dst p)
              (log (EvPrint ("Writing bam file to " +:+ dst p)) w1))
    as (w2 & b & Hrun2 & _). rewrite Hrun2. intros [= <- <-] Hw.
  apply (Hwrite _ _ _ _ _ Hrun2), Hprint. by apply (Hanim _ _ _ Hrun1).
Qed.

(** A job is: the output directory, the scene printed when asked for, the
    relocation, the artifacts; it ends where the first of the output
    directory and the relocation raises. *)
Lemma emit_stages args p conv w w' r :
  emit args p conv w = (w', r) →
  (∃ e, r = Raise e
        ∧ os_makedirs (Fn.to_os_specific (outdir p)) w = (w', Raise e))
  ∨ (∃ w1,
       os_makedirs (Fn.to_os_specific (outdir p)) w = (w1, Ok tt)
       ∧ ((∃ e, r = Raise e
                ∧ relocate_textures args p conv (after_ls args conv w1)
                  = (w', Raise e))
          ∨ (∃ w3, r = Ok tt
                   ∧ relocate_textures args p conv (after_ls args conv w1)
                     = (w3, Ok tt)
                   ∧ write_artifacts args p conv w3 = (w', Ok tt)))).
Proof.
  unfold emit. unfold bind at 1.
  destruct (os_makedirs _ w) as [w1 [[]|e]] eqn:Hmk.
  2:{ intros [= <- <-]. left. by exists e. }
  right. exists w1. split; [done|]. revert H. unfold bind at 1.
  assert (Hls : (if arg_print_scene args then ls (active_scene conv)
                 else ret tt) w1 = (after_ls args conv w1, Ok tt)).
  { unfold after_ls. by destruct (arg_print_scene args). }
  rewrite Hls. unfold bind at 1.
  destruct (relocate_textures args p conv _) as [w3 [[]|e]] eqn:Hrel.
  2:{ intros [= <- <-]. left. by exists e. }
  destruct (write_artifacts_spec args p conv w3) as (w4 & Hrun & _).
  rewrite Hrun. intros [= <- <-]. right. by exists w3.
Qed.

(** ** Where a job can raise *)

Lemma mkdirs_go_blocked blocked base todo m n c :
  (0 < n ≤ length todo)%nat →
  m !! (base ++ take n todo)%list = Some (File c) →
  ∃ err, snd (FS.mkdirs_go blocked base todo m) = Some err.
Proof.
  revert base m n. induction todo as [|c0 rest IH]; intros base m n Hn Hfile.
  - simpl in Hn. lia.
  - simpl. destruct n as [|n]; [lia|]. simpl in Hfile, Hn.
    replace (base ++ c0 :: take n rest)%list
      with ((base ++ [c0]) ++ take n rest)%list in Hfile
      by by rewrite <- app_assoc.
    destruct n as [|n].
    { rewrite take_0, app_nil_r in Hfile. rewrite Hfile. by eexists. }
    destruct (m !! (base ++ [c0])%list) as [[|c1]|] eqn:Hhere.
    + apply (IH _ _ (S n)); [lia|done].
    + by eexists.
    + apply (IH _ _ (S n)); [lia|].
      rewrite lookup_insert_ne; [done|].
      intros Heq. apply (f_equal length) in Heq.
      rewrite !length_app, length_take in Heq. destruct rest; simpl in *; lia.
Qed.

(** [os.makedirs] fails when the path or one of its ancestors is a regular
    file. *)
Lemma makedirs_blocked wd name m n c :
  (0 < n ≤ length (FS.resolve wd name))%nat →
  m !! take n (FS.resolve wd name) = Some (File c) →
  ∃ err, snd (FS.makedirs wd name m) = Some err.
Proof.
  intros Hn Hfile. unfold FS.makedirs. case_bool_decide; [by eexists|].
  by apply (mkdirs_go_blocked _ [] _ m n c).
Qed.

(** X1.  The output directory comes first (line 136).  When its path or one
    of its ancestors is a regular file, the job raises there: nothing has
    been printed, no texture filename has been rewritten, and the only call
    made is that of [os.makedirs]. *)
Theorem output_directory_blocked_stops_the_job args p conv w n c :
  (0 < n ≤ length (FS.resolve (cwd w) (Fn.to_os_specific (outdir p))))%nat →
  fs w !! take n (FS.resolve (cwd w) (Fn.to_os_specific (outdir p)))
    = Some (File c) →
  ∃ err,
    snd (emit args p conv w) = Raise err
    ∧ heap (fst (emit args p conv w)) = heap w
    ∧ trace (fst (emit args p conv w))
      = (trace w ++ [EvMakedirs (Fn.to_os_specific (outdir p))])%list.
Proof.
  intros Hn Hfile.
  destruct (makedirs_blocked _ _ _ _ _ Hn Hfile) as [err Herr].
  exists err.
  assert (Hrun : emit args p conv w
    = (set_fs (fst (FS.makedirs (cwd w) (Fn.to_os_specific (outdir p)) (fs w)))
         (log (EvMakedirs (Fn.to_os_specific (outdir p))) w), Raise err)).
  { unfold emit. unfold bind at 1. unfold os_makedirs.
    by rewrite fs_call_run, Herr. }
  by rewrite Hrun.
Qed.

Lemma output_directory_blocked_stops_the_job_witness :
  ∃ err,
    snd (emit (job_args "/out/model.bam" None embed) paths_in_to_out
           converted_one_geom world_out_is_file) = Raise err
    ∧ heap (fst (emit (job_args "/out/model.bam" None embed) paths_in_to_out
                   converted_one_geom world_out_is_file))
      = heap world_out_is_file
    ∧ trace (fst (emit (job_args "/out/model.bam" None embed) paths_in_to_out
                    converted_one_geom world_out_is_file))
      = (trace world_out_is_file
         ++ [EvMakedirs (Fn.to_os_specific (outdir paths_in_to_out))])%list.
Proof.
  apply (output_directory_blocked_stops_the_job
           (job_args "/out/model.bam" None embed) paths_in_to_out
           converted_one_geom world_out_is_file 1 (Bytes "not a directory")).
  - vm_compute. lia.
  - vm_compute. reflexivity.
Defined.

(** Once the relocation is done the job cannot raise: a BAM file that
    cannot be written is passed over. *)
Lemma write_artifacts_ok args p conv w :
  snd (write_artifacts args p conv w) = Ok tt.
Proof. by destruct (write_artifacts_spec args p conv w) as (w' & -> & _). Qed.

(** X2.  A job raises only from [os.makedirs] on the output directory or
    from the relocation of a texture; the return value of
    [write_bam_file] is not looked at, so the writes of lines 179 and 182
    never stop the job. *)
Theorem job_raises_only_before_the_writes args p conv :
  (∀ w, snd (write_artifacts args p conv w) = Ok tt)
  ∧ (∀ w w' e, emit args p conv w = (w', Raise e) →
       os_makedirs (Fn.to_os_specific (outdir p)) w = (w', Raise e)
       ∨ ∃ w1,
           os_makedirs (Fn.to_os_specific (outdir p)) w = (w1, Ok tt)
           ∧ relocate_textures args p conv (after_ls args conv w1)
             = (w', Raise e)).
Proof.
  split; [apply write_artifacts_ok|].
  intros w w' e Hrun.
  destruct (emit_stages _ _ _ _ _ _ Hrun)
    as [(e' & [= <-] & Hmk)|(w1 & Hmk & [(e' & [= <-] & Hrel)|(w3 & ? & _)])];
    [by left| |done].
  right. by exists w1.
Qed.

Lemma job_raises_only_before_the_writes_witness :
  os_makedirs (Fn.to_os_specific (outdir paths_in_to_out)) world_out_is_file
  = (fst (emit (job_args "/out/model.bam" None embed) paths_in_to_out
            converted_one_geom world_out_is_file),
     Raise (FileExistsError "/out"))
  ∨ ∃ w1,
      os_makedirs (Fn.to_os_specific (outdir paths_in_to_out)) world_out_is_file
      = (w1, Ok tt)
      ∧ relocate_textures (job_args "/out/model.bam" None embed)
          paths_in_to_out converted_one_geom
          (after_ls (job_args "/out/model.bam" None embed)
             converted_one_geom w1)
        = (fst (emit (job_args "/out/model.bam" None embed) paths_in_to_out
                  converted_one_geom world_out_is_file),
           Raise (FileExistsError "/out")).
Proof.
  apply (proj2 (job_raises_only_before_the_writes
                  (job_args "/out/model.bam" None embed) paths_in_to_out
                  converted_one_geom) world_out_is_file).
  vm_compute. reflexivity.
Defined.

(** ** Invariants of a job *)

Lemma emit_invariant (I : world → Prop) args p conv :
  (∀ name w w' r, os_makedirs name w = (w', r) → I w → I w') →
  (∀ e w, I w → I (log e w)) →
  (∀ t w w' r, relocate_texture args p t w = (w', r) → I w → I w') →
  (∀ n path w w' b, write_bam_file n path w = (w', Ok b) → I w → I w') →
  ∀ w w' r, emit args p conv w = (w', r) → I w → I w'.
Proof.
  intros Hmk Hlog Hstep Hwrite w w' r Hrun Hw.
  assert (Hls : ∀ w1, I w1 → I (after_ls args conv w1)).
  { intros w1 H1. unfold after_ls. destruct (arg_print_scene args); auto. }
  destruct (emit_stages _ _ _ _ _ _ Hrun)
    as [(e & _ & H1)|(w1 & H1 & [(e & _ & H2)|(w3 & _ & H2 & H3)])].
  - by apply (Hmk _ _ _ _ H1).
  - apply (relocate_textures_invariant I _ _ _ Hstep _ _ _ H2), Hls.
    by apply (Hmk _ _ _ _ H1).
  - apply (write_artifacts_invariant I args p conv (λ l, Hlog _) Hwrite
             _ _ _ H3).
    apply (relocate_textures_invariant I _ _ _ Hstep _ _ _ H2), Hls.
    by apply (Hmk _ _ _ _ H1).
Qed.

(** ** The texture objects *)

Lemma rewritten_heap_fullpath p t w t' :
  fullpath <$> rewritten_heap p t w !! t' = fullpath <$> heap w !! t'.
Proof.
  destruct (decide (t = t')) as [<-|Hne].
  - rewrite rewritten_heap_lookup. by destruct (heap w !! t).
  - by rewrite rewritten_heap_lookup_ne.
Qed.

(** X5.  The only thing a job changes in a texture is its filename: every
    texture keeps its full path, and the job neither makes nor drops a
    texture object. *)
Theorem job_keeps_fullpaths args p conv w :
  (∀ t, fullpath <$> heap (fst (emit args p conv w)) !! t
        = fullpath <$> heap w !! t)
  ∧ dom (heap (fst (emit args p conv w))) = dom (heap w).
Proof.
  apply (emit_invariant
           (λ w1, (∀ t, fullpath <$> heap w1 !! t = fullpath <$> heap w !! t)
                  ∧ dom (heap w1) = dom (heap w)) args p conv)
    with (w := w) (r := snd (emit args p conv w)).
  - intros name v v' r (-> & _)%os_makedirs_frame. done.
  - done.
  - intros t v v' r ->%relocate_texture_heap [Hf Hd]. split.
    + intros t'. by rewrite rewritten_heap_fullpath.
    + rewrite <- Hd. unfold rewritten_heap. apply dom_alter_L.
  - intros n path v v' b Hwr.
    destruct (write_bam_file_spec n path v) as (v1 & b1 & Hrun & Hh & _).
    rewrite Hrun in Hwr. injection Hwr as <- _. by rewrite Hh.
  - apply surjective_pairing.
  - done.
Qed.

(** ** Converting in place *)

Lemma for_each_ok {A} (I : world → Prop) (xs : list A) (body : A → M unit) :
  (∀ x w, I w → ∃ w', body x w = (w', Ok tt) ∧ I w') →
  ∀ w, I w → ∃ w', for_each xs body w = (w', Ok tt) ∧ I w'.
Proof.
  intros Hbody. induction xs as [|x xs IH]; intros w Hw; simpl.
  - by exists w.
  - unfold bind. destruct (Hbody x w Hw) as (w1 & -> & H1). by apply IH.
Qed.

(** X6.  When the assets directory is the output directory the relocation
    cannot raise and leaves the file system alone: it makes no directory
    and copies no file, whether the texture files are there or not; it
    only rewrites the filenames and prints. *)
Theorem relocation_in_place_cannot_fail args p conv w :
  assets_dir p = outdir p →
  ∃ w' lines,
    relocate_textures args p conv w = (w', Ok tt)
    ∧ fs w' = fs w
    ∧ trace w' = (trace w ++ map EvPrint lines)%list.
Proof.
  intros Hsame. unfold relocate_textures, bind, collect_textures.
  destruct (for_each_ok
              (λ w1, fs w1 = fs w
                     ∧ ∃ lines, trace w1 = (trace w ++ map EvPrint lines)%list)
              (filter (λ t, from_option filename "" (heap w !! t) ≠ "")
                 (concat (map find_all_textures (scenes conv))))
              (relocate_texture args p)) with (w := w)
    as (w' & Hrun & Hfs & lines & Htr).
  - intros t w1 [Hfs (lines & Htr)]. exists (retarget p t w1).
    rewrite relocate_texture_eq, bool_decide_eq_false_2.
    2:{ intros Hne. apply Hne. unfold texsrc_of, texdst_of. by rewrite Hsame. }
    split; [done|]. split; [done|].
    destruct (retarget_trace p t w1) as (l1 & l2 & ->).
    exists (lines ++ [l1; l2])%list.
    by rewrite Htr, map_app, <- app_assoc.
  - split; [done|]. exists []. by rewrite app_nil_r.
  - by exists w', lines.
Qed.

Lemma relocation_in_place_cannot_fail_witness :
  ∃ w' lines,
    relocate_textures (job_args "" None embed) paths_in_place
      converted_one_geom world_one_texture = (w', Ok tt)
    ∧ fs w' = fs world_one_texture
    ∧ trace w' = (trace world_one_texture ++ map EvPrint lines)%list.
Proof.
  apply (relocation_in_place_cannot_fail (job_args "" None embed)
           paths_in_place converted_one_geom world_one_texture).
  vm_compute. reflexivity.
Defined.

(** ** The names of the artifacts *)

Lemma length_app_str (a b : string) :
  String.length (a +:+ b) = (String.length a + String.length b)%nat.
Proof. induction a as [|x a IH]; [done|]. rewrite app_cons. simpl. by rewrite IH. Qed.

Lemma app_inv_tail_str (a b s : string) : a +:+ s = b +:+ s → a = b.
Proof.
  revert b. induction a as [|x a IH]; intros [|y b] H; [done| | |].
  - apply (f_equal String.length) in H.
    rewrite app_nil_l_str, app_cons in H. simpl in H.
    rewrite length_app_str in H. lia.
  - apply (f_equal String.length) in H.
    rewrite app_nil_l_str, app_cons in H. simpl in H.
    rewrite length_app_str in H. lia.
  - rewrite !app_cons in H. injection H as -> H. by rewrite (IH _ H).
Qed.

(** A filename is its part without the extension, then the dot and the
    extension when it has one. *)
Lemma fullpath_wo_extension_split f :
  f = Fn.get_fullpath_wo_extension f
      +:+ match PyStr.split_last "." (Fn.get_basename f) with
          | Some (_, e) => "." +:+ e
          | None => ""
          end.
Proof.
  unfold Fn.get_fullpath_wo_extension, Fn.get_basename, Fn.before_basename.
  destruct (PyStr.split_last "/" f) as [[h t]|] eqn:Hslash.
  - destruct (split_last_Some _ _ _ _ Hslash) as [Hf _].
    destruct (PyStr.split_last "." t) as [[stem e]|] eqn:Hdot.
    + destruct (split_last_Some _ _ _ _ Hdot) as [Ht _].
      rewrite Hf at 1. rewrite Ht. rewrite !app_assoc_str.
      by rewrite app_cons, app_nil_l_str.
    + by rewrite app_empty_r.
  - destruct (PyStr.split_last "." f) as [[stem e]|] eqn:Hdot.
    + by destruct (split_last_Some _ _ _ _ Hdot) as [Hf _].
    + by rewrite app_empty_r.
Qed.

(** X8.  The files of the animation bundles are told apart by the bundle
    names alone: two bundles get the same path exactly when they have the
    same name (the later write then replaces the earlier), and no bundle
    gets the path of the destination. *)
Theorem anim_dst_by_name p :
  (∀ n1 n2, anim_dst p n1 = anim_dst p n2 ↔ n1 = n2)
  ∧ (∀ n, anim_dst p n ≠ dst p).
Proof.
  split.
  - intros n1 n2. split; [|by intros ->].
    unfold anim_dst. intros H. apply (inj (String.app _)) in H.
    apply app_inv_tail_str in H. rewrite !app_cons, !app_nil_l_str in H.
    injection H as H. by apply app_inv_tail_str in H.
  - intros n. unfold anim_dst. rewrite (fullpath_wo_extension_split (dst p)) at 3.
    intros H. apply (inj (String.app _)) in H. revert H.
    rewrite !app_cons, app_nil_l_str.
    destruct (PyStr.split_last "." (Fn.get_basename (dst p))) as [[stem e]|];
      [rewrite app_cons|]; done.
Qed.

Lemma anim_dst_by_name_witness :
  anim_dst paths_in_to_out "walk" ≠ anim_dst paths_in_to_out "idle"
  ∧ anim_dst paths_in_to_out "walk" ≠ dst paths_in_to_out.
Proof.
  split.
  - intros H.
    apply (proj1 (proj1 (anim_dst_by_name paths_in_to_out) "walk" "idle")) in H.
    discriminate H.
  - apply (proj2 (anim_dst_by_name paths_in_to_out)).
Defined.

Lemma split_last_app_None c a b :
  PyStr.split_last c b = None →
  PyStr.split_last c (a +:+ b)
  = match PyStr.split_last c a with
    | Some (h, t) => Some (h, t +:+ b)
    | None => None
    end.
Proof.
  intros Hb. induction a as [|x a IH]; [by rewrite app_nil_l_str|].
  rewrite app_cons. simpl. rewrite IH.
  destruct (PyStr.split_last c a) as [[h t]|]; [done|].
  by case_bool_decide.
Qed.

(** X9.  The default destination always has the extension [bam]; it is the
    source cut at its last dot with [.bam] put after it, so the default for
    a path that is a default already is that path. *)
Theorem default_dst_has_extension_bam src :
  Fn.get_extension (default_dst src) = "bam"
  ∧ Fn.get_fullpath_wo_extension (default_dst src) = PyStr.rsplit1_head "." src
  ∧ default_dst (default_dst src) = default_dst src.
Proof.
  unfold default_dst. generalize (PyStr.rsplit1_head "." src). intros h.
  assert (Hdot : PyStr.split_last "." (h +:+ ".bam") = Some (h, "bam")).
  { rewrite (split_last_app_Some "." h ".bam" "" "bam") by done.
    by rewrite app_empty_r. }
  assert (Hbase : ∃ t, Fn.get_basename (h +:+ ".bam") = t +:+ ".bam"
                       ∧ h = Fn.before_basename (h +:+ ".bam") +:+ t).
  { unfold Fn.get_basename, Fn.before_basename.
    rewrite (split_last_app_None "/" h ".bam") by done.
    destruct (PyStr.split_last "/" h) as [[d t]|] eqn:Hs.
    - exists t. split; [done|].
      destruct (split_last_Some _ _ _ _ Hs) as [-> _].
      by rewrite app_assoc_str, app_cons, app_nil_l_str.
    - by exists h. }
  destruct Hbase as (t & Hb & Hh).
  assert (Hext : PyStr.split_last "." (t +:+ ".bam") = Some (t, "bam")).
  { rewrite (split_last_app_Some "." t ".bam" "" "bam") by done.
    by rewrite app_empty_r. }
  split; [|split].
  - unfold Fn.get_extension. by rewrite Hb, Hext.
  - unfold Fn.get_fullpath_wo_extension. by rewrite Hb, Hext.
  - unfold PyStr.rsplit1_head. by rewrite Hdot.
Qed.

(** ** [standardize] twice is [standardize] once *)

Lemma standardize_step_nf l fl stack c :
  stack_nf l stack →
  (fl = true → stack = [] ∧ l = true) →
  stack_nf l (Fn.standardize_step fl stack c).
Proof.
  intros Hnf Hfl. unfold Fn.standardize_step.
  destruct (decide (c = "..")) as [->|Hdd].
  - (* [..] *)
    rewrite (bool_decide_eq_false_2 (".." = ".")) by done.
    rewrite (bool_decide_eq_true_2 (".." = "..")) by done. simpl.
    destruct stack as [|top below];
      [left; exists [], 1; split; [done|constructor]|].
    case_bool_decide as Htop.
    + subst top.
      destruct Hnf as [(rest & k & Hst & Hrest)|(_ & rest & Hst & Hrest)].
      * destruct rest as [|r rest].
        -- left. exists [], (S k). split; [|done].
           simpl in *. by rewrite <- Hst.
        -- simpl in Hst. injection Hst as <- _.
           inversion_clear Hrest as [|?? [_ Hr] _]. done.
      * destruct rest as [|r rest]; [done|].
        simpl in Hst. injection Hst as <- _.
        inversion_clear Hrest as [|?? [_ Hr] _]. done.
    + case_bool_decide as Hdot.
      * subst top.
        destruct Hnf as [(rest & k & Hst & Hrest)|(_ & rest & Hst & Hrest)].
        -- destruct rest as [|r rest].
           ++ destruct k; [done|]. simpl in Hst. by injection Hst.
           ++ simpl in Hst. injection Hst as <- _.
              inversion_clear Hrest as [|?? [Hr _] _]. done.
        -- destruct rest as [|r rest].
           ++ simpl in Hst. injection Hst as ->. left.
              exists [], 1. split; [done|constructor].
           ++ simpl in Hst. injection Hst as <- _.
              inversion_clear Hrest as [|?? [Hr _] _]. done.
      * destruct Hnf as [(rest & k & Hst & Hrest)|(Hl & rest & Hst & Hrest)].
        -- destruct rest as [|r rest].
           ++ destruct k; [done|]. simpl in Hst. by injection Hst as -> _.
           ++ simpl in Hst. injection Hst as _ ->.
              inversion_clear Hrest. left. by exists rest, k.
        -- destruct rest as [|r rest].
           ++ simpl in Hst. by injection Hst as -> _.
           ++ simpl in Hst. injection Hst as _ ->.
              inversion_clear Hrest. right. split; [done|]. by exists rest.
  - rewrite (bool_decide_eq_false_2 (c = "..")) by done.
    destruct (decide (c = ".")) as [->|Hc].
    + rewrite (bool_decide_eq_true_2 ("." = ".")) by done.
      destruct fl; simpl; [|done].
      destruct (Hfl eq_refl) as [-> ->].
      right. split; [done|]. exists []. split; [done|constructor].
    + rewrite (bool_decide_eq_false_2 (c = ".")) by done. simpl.
      destruct Hnf as [(rest & k & -> & Hrest)|(Hl & rest & -> & Hrest)].
      * left. exists (c :: rest), k. split; [done|]. by constructor.
      * right. split; [done|]. exists (c :: rest). split; [done|].
        by constructor.
Qed.

Lemma standardize_go_nf l fl stack cs :
  stack_nf l stack →
  (fl = true → stack = [] ∧ l = true) →
  stack_nf l (Fn.standardize_go fl stack cs).
Proof.
  revert fl stack. induction cs as [|c cs IH]; intros fl stack Hnf Hfl; [done|].
  simpl. apply IH; [by apply standardize_step_nf|done].
Qed.

Lemma standardize_go_plain fl stack cs :
  Forall plain cs → Fn.standardize_go fl stack cs = (rev cs ++ stack)%list.
Proof.
  intros Hcs. revert fl stack.
  induction Hcs as [|c cs [Hd Hdd] _ IH]; intros fl stack; [done|].
  simpl. unfold Fn.standardize_step.
  rewrite (bool_decide_eq_false_2 (c = ".")), (bool_decide_eq_false_2 (c = ".."))
    by done.
  simpl. by rewrite IH, <- app_assoc.
Qed.

Lemma standardize_go_dotdots fl j k cs :
  Forall plain cs →
  Fn.standardize_go fl (replicate j "..") (replicate k ".." ++ cs)
  = (rev cs ++ replicate (k + j) "..")%list.
Proof.
  intros Hcs. revert fl j. induction k as [|k IH]; intros fl j.
  - by apply standardize_go_plain.
  - simpl. replace (Fn.standardize_step fl (replicate j "..") "..")
      with (replicate (S j) "..").
    + rewrite IH. by replace (k + S j)%nat with (S (k + j)) by lia.
    + unfold Fn.standardize_step. by destruct j, fl.
Qed.

(** Processing again what a pass has kept keeps all of it. *)
Lemma standardize_go_rev_nf l stack :
  stack_nf l stack → Fn.standardize_go l [] (rev stack) = stack.
Proof.
  intros [(rest & k & -> & Hrest)|(-> & rest & -> & Hrest)].
  - rewrite rev_app_distr.
    replace (rev (replicate k "..")) with (replicate k "..").
    2:{ clear. induction k as [|k IH]; [done|]. simpl. rewrite <- IH.
        clear IH. induction k as [|k IH]; [done|]. simpl. by rewrite <- IH. }
    rewrite (standardize_go_dotdots l 0 k) by by apply Forall_rev.
    by rewrite rev_involutive, Nat.add_0_r.
  - rewrite rev_app_distr. simpl.
    rewrite standardize_go_plain by by apply Forall_rev.
    by rewrite rev_involutive.
Qed.

Section components_facts.
Import PyStr.

Lemma split_sep_component c :
  contains "/" c = false → split_sep c = [c].
Proof.
  induction c as [|a c IH]; [done|]. simpl.
  intros [Ha Hc]%orb_false_iff. unfold is_sep. rewrite Ha, (IH Hc). done.
Qed.

Lemma split_sep_component_sep c s :
  contains "/" c = false → split_sep (c +:+ String "/" s) = c :: split_sep s.
Proof.
  induction c as [|a c IH]; [done|]. rewrite app_cons. simpl.
  intros [Ha Hc]%orb_false_iff. unfold is_sep. rewrite Ha, (IH Hc). done.
Qed.

Lemma split_sep_join_sep cs :
  Forall component cs → cs ≠ [] → split_sep (join_sep cs) = cs.
Proof.
  induction 1 as [|c cs [_ Hc] Hcs IH]; [done|]. intros _.
  destruct cs as [|c' cs]; [by apply split_sep_component|].
  change (join_sep (c :: c' :: cs))
    with (c +:+ String "/" (join_sep (c' :: cs))).
  rewrite split_sep_component_sep by done. by rewrite IH.
Qed.

Lemma components_join_sep cs :
  Forall component cs → Fn.components (join_sep cs) = cs.
Proof.
  intros Hcs. unfold Fn.components. destruct cs as [|c cs]; [done|].
  rewrite split_sep_join_sep by done.
  induction Hcs as [|x l [Hx _] _ IH]; [done|].
  by rewrite filter_cons_True, IH.
Qed.

Lemma components_sep_join_sep cs :
  Forall component cs → Fn.components (String "/" (join_sep cs)) = cs.
Proof.
  intros Hcs. unfold Fn.components. simpl.
  rewrite filter_cons_False by (intros H; by apply H).
  by apply components_join_sep.
Qed.

(** [Filename::standardize] is idempotent. *)
Lemma standardize_idemp f :
  Fn.standardize (Fn.standardize f) = Fn.standardize f.
Proof.
  unfold Fn.standardize at 2 3. case_bool_decide as Hdot; [by subst f|].
  cbv zeta.
  set (g := startswith_sep f).
  set (stack := Fn.standardize_go (negb g) [] (Fn.components f)).
  assert (Hcomp : Forall component (rev stack)).
  { apply Forall_rev, standardize_go_components; [done|].
    apply components_are_components. }
  assert (Hnf : stack_nf (negb g) stack).
  { apply standardize_go_nf; [left; exists [], 0; by split; [|constructor]|]. by intros ->. }
  destruct (join_sep_clean _ Hcomp) as [Hstart _].
  unfold Fn.standardize. case_bool_decide as Hdot'; [done|]. cbv zeta.
  destruct g; rewrite ?app_cons, app_nil_l_str.
  - simpl startswith_sep at 1. simpl negb.
    rewrite components_sep_join_sep by done.
    unfold is_sep. simpl.
    by rewrite (standardize_go_rev_nf false stack Hnf).
  - rewrite Hstart. simpl negb.
    rewrite components_join_sep by done.
    by rewrite (standardize_go_rev_nf true stack Hnf).
Qed.

End components_facts.

(** ** Relocating a texture again *)

Lemma to_os_specific_standardize f :
  Fn.to_os_specific (Fn.standardize f) = Fn.standardize f.
Proof.
  unfold Fn.to_os_specific. case_bool_decide as He; [done|].
  apply standardize_idemp.
Qed.

(** [makeRelativeTo] changes nothing in what it has produced. *)
Lemma make_relative_to_idemp d f :
  fst (Fn.make_relative_to d (fst (Fn.make_relative_to d f)))
  = fst (Fn.make_relative_to d f).
Proof.
  destruct (snd (Fn.make_relative_to d f)) eqn:Hsnd.
  { destruct (make_relative_to_true _ _ Hsnd) as [_ Hl].
    by rewrite (make_relative_to_local d _ Hl). }
  revert Hsnd. unfold Fn.make_relative_to at 1 3 4.
  destruct (_ || _) eqn:Hguard.
  { intros _. simpl. unfold Fn.make_relative_to. by rewrite Hguard. }
  cbv zeta.
  apply orb_false_iff in Hguard as [[[_ Hd]%orb_false_iff Hf]%orb_false_iff Hda].
  apply negb_false_iff in Hf, Hda. apply bool_decide_eq_false in Hd.
  assert (Hf' : PyStr.startswith_sep (Fn.standardize f) = true)
    by by apply standardize_absolute.
  assert (Hguard' :
    bool_decide (Fn.standardize f = "") || bool_decide (d = "")
    || negb (PyStr.startswith_sep (Fn.standardize f))
    || negb (PyStr.startswith_sep d) = false).
  { rewrite Hf', Hda, (bool_decide_eq_false_2 (d = "")) by done.
    rewrite bool_decide_eq_false_2; [done|].
    intros He. by rewrite He in Hf'. }
  destruct (decide (Fn.standardize d = "/")) as [Hroot|Hroot].
  { rewrite (bool_decide_eq_true_2 _ Hroot). intros _. simpl.
    unfold Fn.make_relative_to. rewrite Hguard'. cbv zeta.
    by rewrite (bool_decide_eq_true_2 _ Hroot), standardize_idemp. }
  rewrite (bool_decide_eq_false_2 _ Hroot).
  destruct (decide (Fn.get_common_prefix (Fn.standardize f)
                      (Fn.standardize d +:+ "/.") < 2)) as [Hc|Hc].
  2:{ by rewrite (bool_decide_eq_false_2 _ Hc). }
  rewrite (bool_decide_eq_true_2 _ Hc). intros _. simpl.
  unfold Fn.make_relative_to. rewrite Hguard'. cbv zeta.
  rewrite (bool_decide_eq_false_2 _ Hroot), standardize_idemp.
  by rewrite (bool_decide_eq_true_2 _ Hc).
Qed.

Lemma relpath_of_idemp p f : relpath_of p (relpath_of p f) = relpath_of p f.
Proof. apply make_relative_to_idemp. Qed.

Lemma relocate_texture_declared_ne args p t w w' r t' :
  relocate_texture args p t w = (w', r) → t ≠ t' →
  declared w' t' = declared w t'.
Proof.
  intros Hh%relocate_texture_heap Hne. unfold declared.
  by rewrite Hh, rewritten_heap_lookup_ne.
Qed.

(** The filenames after a loop that went through: rewritten for the
    textures of the list, as they were for the others. *)
Lemma for_each_relocate_declared args p ts w w' :
  for_each ts (relocate_texture args p) w = (w', Ok tt) →
  ∀ t, declared w' t
       = if bool_decide (t ∈ ts) then relpath_of p (declared w t)
         else declared w t.
Proof.
  revert w. induction ts as [|x ts IH]; intros w; simpl.
  - by intros [= <-] t.
  - unfold bind.
    destruct (relocate_texture args p x w) as [w1 [[]|e]] eqn:Hx; [|done].
    intros Hrest t. rewrite (IH _ Hrest t).
    destruct (decide (x = t)) as [<-|Hne].
    + rewrite (relocate_texture_declared _ _ _ _ _ _ Hx).
      rewrite (bool_decide_eq_true_2 (x ∈ x :: ts)) by by left.
      case_bool_decide; [apply relpath_of_idemp|done].
    + rewrite (relocate_texture_declared_ne _ _ _ _ _ _ _ Hx Hne).
      rewrite (bool_decide_ext (t ∈ x :: ts) (t ∈ ts)); [done|].
      rewrite elem_of_cons. naive_solver.
Qed.

(** X10.  After a relocation that went through, a texture of some scene
    with a non-empty filename has the filename [makeRelativeTo] gives for
    the filename it had, also when it is listed several times (a texture
    of two scenes is rewritten twice, the second time to no effect); every
    other texture has the filename it had. *)
Theorem relocated_filenames args p conv w w' t :
  relocate_textures args p conv w = (w', Ok tt) →
  ((∃ scene, scene ∈ scenes conv ∧ t ∈ find_all_textures scene) →
   declared w t ≠ "" →
   declared w' t = relpath_of p (declared w t))
  ∧ (¬ ((∃ scene, scene ∈ scenes conv ∧ t ∈ find_all_textures scene)
        ∧ declared w t ≠ "") →
     declared w' t = declared w t).
Proof.
  unfold relocate_textures, bind, collect_textures. intros Hrun.
  rewrite (for_each_relocate_declared _ _ _ _ _ Hrun t).
  assert (Hin : t ∈ filter (λ t, from_option filename "" (heap w !! t) ≠ "")
                      (concat (map find_all_textures (scenes conv)))
                ↔ (∃ scene, scene ∈ scenes conv ∧ t ∈ find_all_textures scene)
                  ∧ declared w t ≠ "").
  { rewrite list_elem_of_filter, list_elem_of_In, in_concat.
    fold (declared w t). split.
    - intros [Hne (l & (scene & <- & Hs)%in_map_iff & Ht)].
      split; [|done]. exists scene. by rewrite !list_elem_of_In.
    - intros [(scene & Hs & Ht) Hne]. split; [done|].
      exists (find_all_textures scene).
      split; [apply in_map|]; by apply list_elem_of_In. }
  split.
  - intros Hs Hne. rewrite bool_decide_eq_true_2; [done|]. by apply Hin.
  - intros Hno. rewrite bool_decide_eq_false_2; [done|]. by rewrite Hin.
Qed.

Lemma relocated_filenames_witness :
  declared (fst (relocate_textures (job_args "/out/model.bam" None embed)
                   paths_in_to_out converted_one_geom world_abs_texture)) 0
  = relpath_of paths_in_to_out (declared world_abs_texture 0)
  ∧ declared (fst (relocate_textures (job_args "/out/model.bam" None embed)
                     paths_in_to_out converted_one_geom world_abs_texture)) 7
    = declared world_abs_texture 7.
Proof.
  assert (Hrun :
    relocate_textures (job_args "/out/model.bam" None embed) paths_in_to_out
      converted_one_geom world_abs_texture
    = (fst (relocate_textures (job_args "/out/model.bam" None embed)
              paths_in_to_out converted_one_geom world_abs_texture), Ok tt))
    by (vm_compute; reflexivity).
  split.
  - apply (proj1 (relocated_filenames _ _ _ _ _ 0 Hrun)).
    + exists scene_one_geom. split; vm_compute; left.
    + vm_compute. discriminate.
  - apply (proj2 (relocated_filenames _ _ _ _ _ 7 Hrun)).
    intros [_ Hne]. apply Hne. vm_compute. reflexivity.
Defined.

(** ** The paths a job works with *)

Section path_facts.
Import PyStr.

(** What [standardize] makes of an absolute filename. *)
Lemma standardize_absolute_form f :
  startswith_sep f = true →
  ∃ cs, Fn.standardize f = String "/" (join_sep cs)
        ∧ Forall component cs ∧ stack_nf false (rev cs).
Proof.
  intros Hf. unfold Fn.standardize.
  case_bool_decide as Hdot; [by subst f|]. rewrite Hf. cbv zeta.
  exists (rev (Fn.standardize_go (negb true) [] (Fn.components f))).
  split; [by rewrite app_cons, app_nil_l_str|]. split.
  - apply Forall_rev, standardize_go_components; [done|].
    apply components_are_components.
  - rewrite rev_involutive. apply standardize_go_nf; [|done].
    left. exists [], 0. split; [done|constructor].
Qed.

Lemma standardize_of_form cs :
  Forall component cs → stack_nf false (rev cs) →
  Fn.standardize (String "/" (join_sep cs)) = String "/" (join_sep cs).
Proof.
  intros Hcs Hnf. unfold Fn.standardize.
  rewrite bool_decide_eq_false_2 by done. cbv zeta. simpl startswith_sep.
  unfold is_sep. simpl bool_decide. cbv iota. simpl negb.
  rewrite components_sep_join_sep by done.
  rewrite <- (rev_involutive cs) at 1.
  rewrite (standardize_go_rev_nf false _ Hnf), rev_involutive.
  by rewrite app_cons, app_nil_l_str.
Qed.

Lemma absolute_standard_standardize f :
  startswith_sep f = true → absolute_standard (Fn.standardize f).
Proof.
  intros Hf. split; [by apply standardize_absolute|apply standardize_idemp].
Qed.

Lemma absolute_standard_to_os_specific f :
  absolute_standard f → Fn.to_os_specific f = f.
Proof.
  intros [Hf Hs]. unfold Fn.to_os_specific.
  case_bool_decide; [done|]. done.
Qed.

Lemma endswith_sep_cons a s :
  s ≠ "" → endswith_sep (String a s) = endswith_sep s.
Proof. by destruct s. Qed.

Lemma endswith_sep_app s t :
  t ≠ "" → endswith_sep (s +:+ t) = endswith_sep t.
Proof.
  intros Ht. induction s as [|a s IH]; [done|].
  rewrite app_cons, endswith_sep_cons; [done|]. by destruct s, t.
Qed.

Lemma component_no_trailing_sep c : component c → endswith_sep c = false.
Proof.
  intros [Hne Hc]. induction c as [|a c IH]; [done|].
  simpl in Hc. apply orb_false_iff in Hc as [Ha Hc].
  destruct c as [|b c]; [by unfold endswith_sep, is_sep; rewrite Ha|].
  rewrite endswith_sep_cons by done. by apply IH.
Qed.

Lemma join_sep_snoc cs c :
  cs ≠ [] → join_sep (cs ++ [c]) = join_sep cs +:+ String "/" c.
Proof.
  induction cs as [|x cs IH]; [done|]. intros _.
  destruct cs as [|y cs]; [done|].
  change (join_sep ((x :: y :: cs) ++ [c]))
    with (x +:+ String "/" (join_sep ((y :: cs) ++ [c]))).
  rewrite IH by done.
  change (join_sep (x :: y :: cs)) with (x +:+ String "/" (join_sep (y :: cs))).
  by rewrite !app_assoc_str, app_cons.
Qed.

Lemma join_sep_no_trailing_sep cs :
  Forall component cs → endswith_sep (join_sep cs) = false.
Proof.
  intros Hcs. destruct (rev cs) as [|c rest] eqn:Hrev.
  - apply (f_equal (@rev string)) in Hrev. rewrite rev_involutive in Hrev. by subst cs.
  - apply (f_equal (@rev string)) in Hrev. rewrite rev_involutive in Hrev. simpl in Hrev.
    subst cs. apply Forall_app in Hcs as [_ Hc]. inversion_clear Hc as [|?? Hc' _].
    destruct (rev rest) as [|x l]; [by apply component_no_trailing_sep|].
    rewrite join_sep_snoc by done.
    rewrite endswith_sep_app by done.
    destruct Hc' as [Hne ?]. destruct c as [|a c]; [done|].
    rewrite endswith_sep_cons by done.
    by apply (component_no_trailing_sep (String a c)).
Qed.

(** An absolute standardized filename ends with a slash only when it is
    the root. *)
Lemma absolute_standard_trailing_sep f :
  absolute_standard f → endswith_sep f = true → f = "/".
Proof.
  intros [Hf Hs] He.
  destruct (standardize_absolute_form f Hf) as (cs & Hform & Hcs & _).
  rewrite Hs in Hform. subst f. destruct cs as [|c cs]; [done|].
  rewrite endswith_sep_cons in He.
  - by rewrite join_sep_no_trailing_sep in He.
  - destruct (join_sep_clean _ Hcs) as [_ _]. inversion_clear Hcs as [|?? [Hne _] _].
    destruct cs; simpl; [done|]. by destruct c.
Qed.

Lemma rstrip_sep_id s : endswith_sep s = false → rstrip_sep s = s.
Proof.
  induction s as [|a s IH]; [done|]. simpl.
  destruct s as [|b s].
  - simpl. by intros ->.
  - intros He. rewrite IH by done. done.
Qed.

Lemma stack_nf_tail c stack : stack_nf false (c :: stack) → stack_nf false stack.
Proof.
  intros [(rest & k & Hst & Hrest)|(? & _)]; [|done].
  left. destruct rest as [|r rest].
  - destruct k as [|k]; [done|]. simpl in Hst. injection Hst as _ ->.
    exists [], k. split; [done|constructor].
  - simpl in Hst. injection Hst as _ ->. inversion_clear Hrest.
    by exists rest, k.
Qed.

(** The directory of an absolute standardized filename is one too. *)
Lemma get_dirname_absolute_standard f :
  absolute_standard f → absolute_standard (Fn.get_dirname f).
Proof.
  intros [Hf Hs].
  destruct (standardize_absolute_form f Hf) as (cs & Hform & Hcs & Hnf).
  rewrite Hs in Hform. subst f. clear Hs Hf.
  assert (Hroot : absolute_standard "/") by by split.
  destruct (rev cs) as [|c rest] eqn:Hrev.
  { apply (f_equal (@rev string)) in Hrev. rewrite rev_involutive in Hrev. by subst cs. }
  apply (f_equal (@rev string)) in Hrev. rewrite rev_involutive in Hrev. simpl in Hrev.
  subst cs.
  apply Forall_app in Hcs as [Hinit Hc]. inversion_clear Hc as [|?? [Hne Hc'] _].
  apply stack_nf_tail in Hnf.
  assert (Hlast : split_last "/" (String "/" c) = Some ("", c)).
  { simpl. by rewrite (split_last_None "/" c Hc'). }
  destruct (rev rest) as [|x l] eqn:Hinit'.
  - simpl. unfold Fn.get_dirname. by rewrite Hlast.
  - rewrite join_sep_snoc by done. rewrite <- Hinit' in *.
    unfold Fn.get_dirname.
    change (String "/" (join_sep (rev rest) +:+ String "/" c))
      with (String "/" (join_sep (rev rest)) +:+ String "/" c).
    rewrite (split_last_app_Some "/" _ _ _ _ Hlast), app_empty_r.
    rewrite rstrip_sep_id.
    2:{ rewrite endswith_sep_cons.
        - by apply join_sep_no_trailing_sep.
        - rewrite Hinit'. inversion Hinit as [|?? [Hx _] _]; [by rewrite Hinit' in *|].
          rewrite Hinit' in *. simplify_eq. destruct l; simpl; [done|].
          by destruct x. }
    split; [done|]. apply standardize_of_form; [done|].
    by rewrite <- (rev_involutive rest) in Hnf.
Qed.

Lemma compose_absolute wd f :
  startswith_sep wd = true → startswith_sep (Fn.compose wd f) = true.
Proof.
  intros Hwd. unfold Fn.compose.
  case_bool_decide as He; [by subst wd|].
  destruct (endswith_sep wd); by apply startswith_sep_app.
Qed.

Lemma make_absolute_absolute_standard wd f :
  startswith_sep wd = true → absolute_standard (Fn.make_absolute wd f).
Proof.
  intros Hwd. unfold Fn.make_absolute, Fn.is_local.
  destruct (startswith_sep f) eqn:Hf; simpl;
    apply absolute_standard_standardize; [done|by apply compose_absolute].
Qed.

End path_facts.

(** X11.  Run from an absolute working directory, a job works with
    absolute, standardized paths only: the source, the destination, their
    directories and the assets directory all start with a slash and are
    left as they are by [standardize] (so their OS-specific form is the
    path itself), whatever the arguments. *)
Theorem resolved_paths_absolute wd args :
  PyStr.startswith_sep wd = true →
  absolute_standard (src (resolve_paths wd args))
  ∧ absolute_standard (dst (resolve_paths wd args))
  ∧ absolute_standard (indir (resolve_paths wd args))
  ∧ absolute_standard (outdir (resolve_paths wd args))
  ∧ absolute_standard (assets_dir (resolve_paths wd args))
  ∧ Fn.to_os_specific (outdir (resolve_paths wd args))
    = outdir (resolve_paths wd args)
  ∧ Fn.to_os_specific (assets_dir (resolve_paths wd args))
    = assets_dir (resolve_paths wd args).
Proof.
  intros Hwd. unfold resolve_paths. simpl.
  pose proof (make_absolute_absolute_standard wd) as Habs.
  repeat split; try apply Habs; try apply get_dirname_absolute_standard,
    Habs; try done;
    apply absolute_standard_to_os_specific;
    [apply get_dirname_absolute_standard|]; by apply Habs.
Qed.

Lemma resolved_paths_absolute_witness :
  absolute_standard
    (outdir (resolve_paths "/work" (job_args "out/./model.bam" None embed)))
  ∧ Fn.to_os_specific
      (assets_dir (resolve_paths "/work" (job_args "out/./model.bam" None embed)))
    = assets_dir (resolve_paths "/work" (job_args "out/./model.bam" None embed)).
Proof.
  destruct (resolved_paths_absolute "/work"
              (job_args "out/./model.bam" None embed))
    as (_ & _ & _ & Hout & _ & _ & Hassets); [reflexivity|].
  exact (conj Hout Hassets).
Defined.

(** ** When a texture is copied *)

Section copy_guard.
Import PyStr.

Lemma standardize_local f :
  startswith_sep f = false → startswith_sep (Fn.standardize f) = false.
Proof.
  intros Hf. unfold Fn.standardize. case_bool_decide as Hdot; [done|].
  rewrite Hf. cbv zeta. rewrite app_nil_l_str.
  apply join_sep_clean, Forall_rev, standardize_go_components; [done|].
  apply components_are_components.
Qed.

Lemma to_os_specific_local f :
  Fn.is_local f = true → startswith_sep (Fn.to_os_specific f) = false.
Proof.
  unfold Fn.is_local. intros Hf%negb_true_iff. unfold Fn.to_os_specific.
  case_bool_decide; [done|]. by apply standardize_local.
Qed.

(** [os.path.join] of an absolute standardized directory and a relative
    path tells the directory. *)
Lemma join_inj a b f :
  absolute_standard a → absolute_standard b → startswith_sep f = false →
  posixpath.join a f = posixpath.join b f → a = b.
Proof.
  intros Ha Hb Hf. unfold posixpath.join. rewrite Hf.
  assert (Hne : ∀ x : string, absolute_standard x → bool_decide (x = "") = false).
  { intros x [Hx _]. apply bool_decide_eq_false_2. by intros ->. }
  rewrite (Hne a Ha), (Hne b Hb). simpl.
  destruct (endswith_sep a) eqn:Hea, (endswith_sep b) eqn:Heb.
  - apply absolute_standard_trailing_sep in Hea, Heb; congruence.
  - apply absolute_standard_trailing_sep in Hea; [|done]. subst a.
    rewrite <- app_assoc_str. intros H%app_inv_tail_str.
    destruct Hb as [Hb _]. destruct b as [|x b]; [done|].
    rewrite app_cons in H. injection H as _ H. by destruct b.
  - apply absolute_standard_trailing_sep in Heb; [|done]. subst b.
    rewrite <- app_assoc_str. intros H%app_inv_tail_str.
    destruct Ha as [Ha _]. destruct a as [|x a]; [done|].
    rewrite app_cons in H. injection H as _ H. by destruct a.
  - rewrite <- !app_assoc_str. intros H%app_inv_tail_str.
    by apply (app_inv_tail_str a b "/").
Qed.

End copy_guard.

(** X12.  With absolute, standardized assets and output directories (as
    [resolve_paths] gives them), the step copies a texture exactly when
    its filename is relative and the two directories differ.  In every
    other case the step cannot fail and calls neither [os.makedirs] nor
    [shutil.copy]; when it does copy, it calls [os.makedirs] on the
    directory of the destination right after its two prints, and then at
    most the one [shutil.copy]. *)
Theorem texture_copied_iff_relative_and_elsewhere args p t w :
  absolute_standard (assets_dir p) → absolute_standard (outdir p) →
  (texsrc_of p (declared w t) ≠ texdst_of p (declared w t)
   ↔ Fn.is_local (declared w t) = true ∧ assets_dir p ≠ outdir p)
  ∧ (¬ (Fn.is_local (declared w t) = true ∧ assets_dir p ≠ outdir p) →
     relocate_texture args p t w = (retarget p t w, Ok tt))
  ∧ (Fn.is_local (declared w t) = true ∧ assets_dir p ≠ outdir p →
     ∃ rest,
       trace (fst (relocate_texture args p t w))
       = (trace (retarget p t w)
          ++ EvMakedirs (posixpath.dirname (texdst_of p (declared w t)))
             :: rest)%list
       ∧ (rest = []
          ∨ rest = [EvCopy (texsrc_of p (declared w t))
                           (texdst_of p (declared w t))])).
Proof.
  intros Ha Ho.
  assert (Hguard : texsrc_of p (declared w t) ≠ texdst_of p (declared w t)
                   ↔ Fn.is_local (declared w t) = true
                     ∧ assets_dir p ≠ outdir p).
  { split.
    - intros Hne. split; [by apply (copy_needs_local p)|].
      intros Heq. apply Hne. unfold texsrc_of, texdst_of. by rewrite Heq.
    - intros [Hl Hd] Heq. apply Hd. unfold texsrc_of, texdst_of in Heq.
      rewrite (absolute_standard_to_os_specific _ Ha),
        (absolute_standard_to_os_specific _ Ho) in Heq.
      by apply (join_inj _ _ _ Ha Ho (to_os_specific_local _ Hl)). }
  split; [done|]. rewrite relocate_texture_eq. split.
  - intros Hno. rewrite bool_decide_eq_false_2; [done|].
    intros Hne. by apply Hno, Hguard.
  - intros Hyes%Hguard. rewrite (bool_decide_eq_true_2 _ Hyes).
    destruct ((os_makedirs _ ;; shutil_copy _ _) (retarget p t w))
      as [w3 r] eqn:Hrun.
    simpl fst.
    destruct (copy_step_frame _ _ _ _ _ _ Hrun) as (_ & _ & [-> | ->]).
    + exists []. by split; [|left].
    + eexists. by split; [|right].
Qed.

Lemma texture_copied_iff_relative_and_elsewhere_witness :
  texsrc_of paths_in_to_out (declared world_one_texture 0)
  ≠ texdst_of paths_in_to_out (declared world_one_texture 0)
  ∧ relocate_texture (job_args "/out/model.bam" None embed) paths_in_to_out 0
      world_abs_texture
    = (retarget paths_in_to_out 0 world_abs_texture, Ok tt).
Proof.
  assert (Ha : absolute_standard (assets_dir paths_in_to_out))
    by (split; vm_compute; reflexivity).
  assert (Ho : absolute_standard (outdir paths_in_to_out))
    by (split; vm_compute; reflexivity).
  split.
  - apply (proj1 (texture_copied_iff_relative_and_elsewhere
                    (job_args "/out/model.bam" None embed) paths_in_to_out 0
                    world_one_texture Ha Ho)).
    split; [vm_compute; reflexivity|]. vm_compute. discriminate.
  - apply (proj1 (proj2 (texture_copied_iff_relative_and_elsewhere
                           (job_args "/out/model.bam" None embed)
                           paths_in_to_out 0 world_abs_texture Ha Ho))).
    intros [Hl _]. vm_compute in Hl. discriminate Hl.
Defined.

(** ** What a job leaves in place *)











Section tree_facts.
Import FS.




















End tree_facts.

Section bam_write_facts.
Import FS.









End bam_write_facts.





(** ** What the files hold at the end *)

Lemma content_in_makedirs wd name m c :
  content_in (fst (FS.makedirs wd name m)) c → content_in m c.
Proof.
  intros [k Hk]. exists k.
  destruct (FS.makedirs wd name m) as [m' o] eqn:Hmk. simpl in Hk.
  destruct (makedirs_keeps _ _ _ _ _ k Hmk) as [<-|[_ Hd]]; [done|].
  by rewrite Hd in Hk.
Qed.

Lemma content_in_copy wd src dst m c :
  content_in (fst (FS.copy wd src dst m)) c → content_in m c.
Proof.
  destruct (FS.copy wd src dst m) as [m' [e|]] eqn:Hcp; simpl.
  - by rewrite (copy_fs_on_error _ _ _ _ _ _ Hcp).
  - destruct (copy_ok _ _ _ _ _ Hcp) as (c0 & Hsrc & -> & _).
    intros [k Hk].
    destruct (decide (FS.resolve wd (FS.copy_target wd src dst m) = k))
      as [<-|Hne].
    + rewrite lookup_insert_eq in Hk. injection Hk as <-. by eexists.
    + rewrite lookup_insert_ne in Hk by done. by exists k.
Qed.

(** The relocation puts no new content into the file system: a file holds
    what some file held before. *)
Lemma relocate_texture_content args p t w w' r c :
  relocate_texture args p t w = (w', r) →
  content_in (fs w') c → content_in (fs w) c.
Proof.
  rewrite relocate_texture_eq. case_bool_decide as Hne; [|by intros [= <- <-]].
  unfold bind, os_makedirs, shutil_copy. rewrite fs_call_run.
  destruct (snd (FS.makedirs _ _ _)).
  - intros [= <- <-]. simpl. apply content_in_makedirs.
  - rewrite fs_call_run. intros [= <- _]. simpl.
    intros Hc%content_in_copy. by apply content_in_makedirs in Hc.
Qed.

Lemma content_in_delete_file wd path m c :
  content_in (FS.delete_file wd path m) c → content_in m c.
Proof.
  unfold FS.delete_file. cbv zeta. intros [k Hk]. exists k.
  repeat case_match; try done;
    by apply lookup_delete_Some in Hk as [_ Hk].
Qed.

Lemma content_in_stray_pz k m c :
  content_in (FS.stray_pz k m) c → content_in m c ∨ c = Bytes "".
Proof.
  unfold FS.stray_pz. repeat case_match; try by left.
  intros [x Hx]. destruct (decide (FS.pz k = x)) as [<-|Hne].
  - rewrite lookup_insert_eq in Hx. injection Hx as <-. by right.
  - rewrite lookup_insert_ne in Hx by done. left. by exists x.
Qed.

(** A BAM file holds names made from the fullpaths of the textures. *)
Lemma bam_content_fullpaths wd path root (h h' : gmap tex_id Texture) :
  (∀ t, fullpath <$> h !! t = fullpath <$> h' !! t) →
  bam_content wd path root h = bam_content wd path root h'.
Proof.
  intros Hf. unfold bam_content. f_equal. apply map_ext. intros t.
  specialize (Hf t). destruct (h !! t), (h' !! t); simpl in *; congruence.
Qed.

Lemma write_bam_file_content n path w c :
  content_in (fs (fst (write_bam_file n path w))) c →
  content_in (fs w) c ∨ c = Bytes ""
  ∨ c = bam_content (cwd w) path n (heap w).
Proof.
  unfold write_bam_file. cbv zeta. case_bool_decide; [by left|].
  change (cwd (log _ w)) with (cwd w). change (fs (log _ w)) with (fs w).
  change (heap (log _ w)) with (heap w).
  destruct (FS.is_dir _ _); [|destruct (FS.is_dir _ _)]; simpl.
  - intros Hs%content_in_stray_pz.
    destruct Hs as [Hc|Hc]; [|by auto].
    apply content_in_delete_file in Hc. by left.
  - intros [k Hk].
    destruct (decide (FS.resolve (cwd w) (Fn.to_os_specific path) = k))
      as [<-|Hne].
    + rewrite lookup_insert_eq in Hk. injection Hk as <-. auto.
    + rewrite lookup_insert_ne in Hk by done. left.
      apply (content_in_delete_file (cwd w) (Fn.to_os_specific path)).
      by exists k.
  - intros Hc%content_in_delete_file. by left.
Qed.

(** X7.  At the end of a job, whatever its outcome, a regular file holds
    what some file held before the job (kept, or copied from a texture
    file), or nothing (the stray [.pz] of a failed write), or the BAM
    content of one of the artifacts of the job, with the texture names
    made from the fullpaths as they were before the job: the filenames
    the relocation rewrites reach no file. *)
Theorem files_hold_old_content_or_bam args p conv w c :
  content_in (fs (fst (emit args p conv w))) c →
  content_in (fs w) c ∨ c = Bytes ""
  ∨ ∃ path root, (path, root) ∈ artifacts args p conv
                 ∧ c = bam_content (cwd w) path root (heap w).
Proof.
  set (I := λ v : world,
    cwd v = cwd w
    ∧ (∀ t, fullpath <$> heap v !! t = fullpath <$> heap w !! t)
    ∧ ∃ pre, bam_writes (trace v) = (bam_writes (trace w) ++ pre)%list
             ∧ (content_in (fs v) c →
                content_in (fs w) c ∨ c = Bytes ""
                ∨ ∃ path root, (path, root) ∈ pre
                    ∧ c = bam_content (cwd w) path root (heap w))).
  assert (HI : I (fst (emit args p conv w))).
  { apply (emit_invariant I args p conv) with (w := w)
      (r := snd (emit args p conv w)); [| | | |apply surjective_pairing|].
    - intros name v v' r Hmk (Hcv & Hf & pre & Hpre & Hc).
      destruct (os_makedirs_frame _ _ _ _ Hmk) as (Hh & Hcw & Htr).
      split; [congruence|]. split; [by rewrite Hh|].
      exists pre. split; [by rewrite Htr, bam_writes_app, Hpre, app_nil_r|].
      intros Hin. apply Hc. revert Hmk Hin. unfold os_makedirs.
      rewrite fs_call_run. intros [= <- _]. apply content_in_makedirs.
    - intros e v (Hcv & Hf & pre & Hpre & Hc).
      split; [done|]. split; [done|].
      exists (pre ++ bam_writes [e])%list. split.
      { unfold log. simpl. by rewrite bam_writes_app, Hpre, app_assoc. }
      intros Hin. destruct (Hc Hin) as [?|[?|(path & root & Hp & ?)]]; auto.
      right; right. exists path, root. split; [|done].
      apply elem_of_app. by left.
    - intros t v v' r Hrun (Hcv & Hf & pre & Hpre & Hc).
      destruct (relocate_texture_frame _ _ _ _ _ _ Hrun) as (Hcw & Hb & _).
      split; [congruence|]. split.
      { intros t'. rewrite (relocate_texture_heap _ _ _ _ _ _ Hrun).
        by rewrite rewritten_heap_fullpath. }
      exists pre. split; [by rewrite Hb|].
      intros Hin. by apply Hc, (relocate_texture_content _ _ _ _ _ _ c Hrun).
    - intros n path v v' b Hrun (Hcv & Hf & pre & Hpre & Hc).
      destruct (write_bam_file_spec n path v)
        as (v1 & b1 & Hrun1 & Hh & Hcw & Htr).
      rewrite Hrun in Hrun1. injection Hrun1 as <- <-.
      split; [congruence|]. split; [by rewrite Hh|].
      exists (pre ++ [(path, n)])%list. split.
      { by rewrite Htr, bam_writes_app, Hpre, app_assoc. }
      intros Hin. pose proof (write_bam_file_content n path v c) as Hw.
      rewrite Hrun in Hw. destruct (Hw Hin) as [Hold|[?| ->]]; [|by auto|].
      + destruct (Hc Hold) as [?|[?|(path' & root & Hp & ?)]]; auto.
        right; right. exists path', root. split; [|done].
        apply elem_of_app. by left.
      + right; right. exists path, n. split.
        * apply elem_of_app. right. by left.
        * rewrite Hcv. by apply bam_content_fullpaths.
    - split; [done|]. split; [done|]. exists [].
      split; [by rewrite app_nil_r|]. by left. }
  destruct HI as (_ & _ & pre & Hpre & Hc). intros Hin.
  destruct (Hc Hin) as [?|[?|(path & root & Hp & ?)]]; auto.
  right; right. exists path, root. split; [|done].
  destruct (emit_outcome args p conv w _ _ (surjective_pairing _))
    as [[(e & _ & Hb)|[_ Hb]] _]; rewrite Hb in Hpre.
  - rewrite <- (app_nil_r (bam_writes (trace w))) in Hpre at 1.
    apply app_inv_head in Hpre. subst pre. by apply elem_of_nil in Hp.
  - apply app_inv_head in Hpre. by subst pre.
Qed.

Lemma files_hold_old_content_or_bam_witness :
  content_in (fs world_one_texture) (Bytes "PNG-a")
  ∨ Bytes "PNG-a" = Bytes ""
  ∨ ∃ path root,
      (path, root) ∈ artifacts (job_args "/out/model.bam" None embed)
                       paths_in_to_out converted_one_geom
      ∧ Bytes "PNG-a"
        = bam_content (cwd world_one_texture) path root
            (heap world_one_texture).
Proof.
  apply (files_hold_old_content_or_bam
           (job_args "/out/model.bam" None embed) paths_in_to_out
           converted_one_geom world_one_texture (Bytes "PNG-a")).
  exists ["out"; "tex"; "a.png"]. vm_compute. reflexivity.
Defined.

(** ** The scene at the destination *)

Section destination_facts.
Import PyStr.





End destination_facts.



